(** * Secure Treasury Management System (ERC-7908 reference code, [stms.py])

    A shallow embedding of [TreasurySystem] and of the library calls it makes,
    followed by the properties of the key-derivation engine.

    Conventions of the embedding:
    - a Python [str] is the list of its code points ([pystr]); [str.encode()]
      is strict UTF-8 and raises on a surrogate code point;
    - a Python [bytes] is a [list byte];
    - a Python [int] is a [Z];
    - a raised exception is the left summand of [result];
    - Python's [None] is [option]'s [None];
    - a method that receives [self] is a state transformer over the
      [TreasurySystem] object. *)

From Stdlib Require Import ZArith NArith String Ascii List Lia Bool.
From Stdlib Require Import Strings.Byte DecimalString DecimalZ DecimalPos.
Import ListNotations.

Local Open Scope Z_scope.

(* ================================================================= *)
(** ** Python values *)

Definition bytes := list byte.
Definition pystr := list N.

(** An ASCII literal of the source as a Python string. *)
Definition lit (s : string) : pystr :=
  map N_of_ascii (list_ascii_of_string s).

(** The exceptions that the calls of [stms.py] can raise: [StructError] is
    [struct.error], [MalformedPointError] is the one of [ecdsa], and
    [PyException] a plain [Exception] with its message. *)
Inductive exn : Type :=
| UnicodeEncodeError
| ValueError (msg : string)
| StructError
| AttributeError
| MalformedPointError
| PyException (msg : string).

Definition result (A : Type) : Type := (exn + A)%type.

Abbreviation Ok a := (inr a) (only parsing).
Abbreviation Raise e := (inl e) (only parsing).

Definition rbind {A B} (m : result A) (f : A -> result B) : result B :=
  match m with
  | inl e => inl e
  | inr a => f a
  end.

Declare Scope result_scope.
Delimit Scope result_scope with result.
Notation "x <- m ;; k" := (rbind m (fun x => k))
  (at level 61, m at next level, right associativity) : result_scope.
Notation "' pat <- m ;; k" := (rbind m (fun x => match x with pat => k end))
  (at level 61, pat pattern, m at next level, right associativity) : result_scope.

Definition is_ok {A} (r : result A) : bool :=
  match r with inr _ => true | inl _ => false end.

(* ================================================================= *)
(** ** Bytes and integers *)

Definition byte_of_N (n : N) : byte :=
  match Byte.of_N (n mod 256) with
  | Some b => b
  | None => x00
  end.

Definition byte_of_Z (z : Z) : byte := byte_of_N (Z.to_N (z mod 256)).
Definition Z_of_byte (b : byte) : Z := Z.of_N (Byte.to_N b).

(** [int.from_bytes(b, 'big')]. *)
Definition int_from_bytes_big (b : bytes) : Z :=
  fold_left (fun acc x => acc * 256 + Z_of_byte x) b 0.

(** The [n] low-order bytes of [z], most significant first. *)
Fixpoint be_bytes (n : nat) (z : Z) : bytes :=
  match n with
  | O => []
  | S m => be_bytes m (z / 256) ++ [byte_of_Z z]
  end.

(** [bytes[a:b]] for [0 <= a <= b]. *)
Definition slice {A} (a b : nat) (l : list A) : list A :=
  firstn (b - a) (skipn a l).

(* ================================================================= *)
(** ** [str.encode()]: strict UTF-8 *)

Definition is_surrogate (c : N) : bool :=
  ((0xD800 <=? c) && (c <=? 0xDFFF))%N.

Definition utf8_char (c : N) : result bytes :=
  (if c <? 0x80 then Ok [byte_of_N c]
   else if c <? 0x800 then
     Ok [byte_of_N (N.lor 0xC0 (N.shiftr c 6));
         byte_of_N (N.lor 0x80 (N.land c 0x3F))]
   else if c <? 0x10000 then
     if is_surrogate c then Raise UnicodeEncodeError
     else
       Ok [byte_of_N (N.lor 0xE0 (N.shiftr c 12));
           byte_of_N (N.lor 0x80 (N.land (N.shiftr c 6) 0x3F));
           byte_of_N (N.lor 0x80 (N.land c 0x3F))]
   else if c <? 0x110000 then
     Ok [byte_of_N (N.lor 0xF0 (N.shiftr c 18));
         byte_of_N (N.lor 0x80 (N.land (N.shiftr c 12) 0x3F));
         byte_of_N (N.lor 0x80 (N.land (N.shiftr c 6) 0x3F));
         byte_of_N (N.lor 0x80 (N.land c 0x3F))]
   else Raise UnicodeEncodeError)%N.

Fixpoint encode (s : pystr) : result bytes :=
  match s with
  | [] => Ok []
  | c :: s' =>
      (b <- utf8_char c ;;
       bs <- encode s' ;;
       Ok (b ++ bs))%result
  end.

(** A string that [encode] accepts: every code point is a Unicode scalar
    value.  (A Python string holds code points below [0x110000] only; the
    last branch of [utf8_char] is there to make the function total.) *)
Definition scalar_value (c : N) : Prop :=
  (c < 0x110000)%N /\ is_surrogate c = false.

Definition encodable (s : pystr) : Prop := Forall scalar_value s.

(* ================================================================= *)
(** ** [bytes.hex()] and decimal formatting *)

Definition hex_digit (n : N) : N :=
  (if n <? 10 then 48 + n else 87 + n)%N.

Definition hex_byte (b : byte) : pystr :=
  let n := Byte.to_N b in
  [hex_digit (n / 16)%N; hex_digit (n mod 16)%N].

Definition hex (b : bytes) : pystr := flat_map hex_byte b.

(** [str(z)] for an [int]: what an f-string prints for [{z}]. *)
Definition decimal (z : Z) : pystr :=
  lit (NilZero.string_of_int (Z.to_int z)).

(* ================================================================= *)
(** ** [hashlib.sha256] (FIPS 180-4), on 32-bit words held in [N] *)

Module SHA256.
Local Open Scope N_scope.

Definition mask32 (x : N) : N := N.land x 0xFFFFFFFF.
Definition add32 (x y : N) : N := mask32 (x + y).
Definition rotr (n x : N) : N :=
  N.lor (N.shiftr x n) (mask32 (N.shiftl x (32 - n))).

Definition Ch (x y z : N) : N :=
  N.lxor (N.land x y) (N.land (N.lxor x 0xFFFFFFFF) z).
Definition Maj (x y z : N) : N :=
  N.lxor (N.lxor (N.land x y) (N.land x z)) (N.land y z).
Definition Sigma0 (x : N) : N :=
  N.lxor (N.lxor (rotr 2 x) (rotr 13 x)) (rotr 22 x).
Definition Sigma1 (x : N) : N :=
  N.lxor (N.lxor (rotr 6 x) (rotr 11 x)) (rotr 25 x).
Definition sigma0 (x : N) : N :=
  N.lxor (N.lxor (rotr 7 x) (rotr 18 x)) (N.shiftr x 3).
Definition sigma1 (x : N) : N :=
  N.lxor (N.lxor (rotr 17 x) (rotr 19 x)) (N.shiftr x 10).

(** The round constants are the fractional parts of the cube roots of the
    first 64 primes, the initial state those of the square roots of the
    first 8: they are computed here rather than tabulated. *)
Definition is_prime (n : N) : bool :=
  (1 <? n) &&
  forallb (fun d => negb (n mod d =? 0))
          (map N.of_nat (seq 2 (N.to_nat n - 2))).

Definition first_primes : list N :=
  Eval vm_compute in filter is_prime (map N.of_nat (seq 2 310)).

(** Largest [r] below [2 ^ bits] with [r ^ 3 <= x], found bit by bit. *)
Fixpoint icbrt (bits : nat) (x r : N) : N :=
  match bits with
  | O => r
  | S b =>
      let r' := r + 2 ^ N.of_nat b in
      icbrt b x (if r' * r' * r' <=? x then r' else r)
  end.

Definition K : list N :=
  Eval vm_compute in
    map (fun p => mask32 (icbrt 36 (p * 2 ^ 96) 0)) first_primes.

Record state : Type := State
  { sa : N; sb : N; sc : N; sd : N; se : N; sf : N; sg : N; sh : N }.

Definition H0 : state :=
  Eval vm_compute in
    let h i := mask32 (N.sqrt (nth i first_primes 0 * 2 ^ 64)) in
    State (h 0%nat) (h 1%nat) (h 2%nat) (h 3%nat)
          (h 4%nat) (h 5%nat) (h 6%nat) (h 7%nat).

Definition word_of_bytes (b : bytes) : N :=
  fold_left (fun acc x => acc * 256 + Byte.to_N x) b 0.

Definition bytes_of_word (x : N) : bytes :=
  [byte_of_N (x / 2 ^ 24); byte_of_N (x / 2 ^ 16);
   byte_of_N (x / 2 ^ 8); byte_of_N x].

Fixpoint words (n : nat) (b : bytes) : list N :=
  match n with
  | O => []
  | S m => word_of_bytes (firstn 4 b) :: words m (skipn 4 b)
  end.

(** Message schedule: [w] holds W_0 .. W_(t-1); [n] more words are added. *)
Fixpoint schedule (n : nat) (w : list N) : list N :=
  match n with
  | O => w
  | S m =>
      let t := length w in
      let at_ k := nth (t - k) w 0 in
      schedule m
        (w ++ [add32 (add32 (sigma1 (at_ 2%nat)) (at_ 7%nat))
                     (add32 (sigma0 (at_ 15%nat)) (at_ 16%nat))])
  end.

Definition round (s : state) (kw : N * N) : state :=
  let '(k, w) := kw in
  let t1 := add32 (add32 (add32 (sh s) (Sigma1 (se s)))
                         (add32 (Ch (se s) (sf s) (sg s)) k)) w in
  let t2 := add32 (Sigma0 (sa s)) (Maj (sa s) (sb s) (sc s)) in
  State (add32 t1 t2) (sa s) (sb s) (sc s)
        (add32 (sd s) t1) (se s) (sf s) (sg s).

Definition compress (s : state) (block : bytes) : state :=
  let w := schedule 48 (words 16 block) in
  let s' := fold_left round (combine K w) s in
  State (add32 (sa s) (sa s')) (add32 (sb s) (sb s'))
        (add32 (sc s) (sc s')) (add32 (sd s) (sd s'))
        (add32 (se s) (se s')) (add32 (sf s) (sf s'))
        (add32 (sg s) (sg s')) (add32 (sh s) (sh s')).

Definition pad (msg : bytes) : bytes :=
  let len := N.of_nat (length msg) in
  let zeros := N.to_nat ((64 - (len + 9) mod 64) mod 64) in
  msg ++ [x80] ++ repeat x00 zeros ++ be_bytes 8 (Z.of_N (8 * len)).

Fixpoint blocks (n : nat) (s : state) (b : bytes) : state :=
  match n with
  | O => s
  | S m => blocks m (compress s (firstn 64 b)) (skipn 64 b)
  end.

Definition digest (msg : bytes) : bytes :=
  let p := pad msg in
  let s := blocks (length p / 64) H0 p in
  bytes_of_word (sa s) ++ bytes_of_word (sb s) ++
  bytes_of_word (sc s) ++ bytes_of_word (sd s) ++
  bytes_of_word (se s) ++ bytes_of_word (sf s) ++
  bytes_of_word (sg s) ++ bytes_of_word (sh s).
End SHA256.

Definition sha256 (msg : bytes) : bytes := SHA256.digest msg.

(* ================================================================= *)
(** ** [TreasurySystem._hierarchical_hash] *)

(** The text hashed at the department layer (the source's [dept_input]
    before [.encode()]). *)
Definition dept_input_str (entity_hash : bytes) (department : pystr) : pystr :=
  lit "DEPT:" ++ hex entity_hash ++ lit ":" ++ department.

Definition _hierarchical_hash (entity department : pystr) : result (Z * Z) :=
  (entity_msg <- encode (lit "ENTITY:" ++ entity) ;;
   let entity_hash := sha256 entity_msg in
   let entity_index :=
     Z.lor (int_from_bytes_big (firstn 4 entity_hash)) 0x80000000 in
   dept_input <- encode (dept_input_str entity_hash department) ;;
   let dept_hash := sha256 dept_input in
   let dept_index :=
     Z.lor (int_from_bytes_big (firstn 4 dept_hash)) 0x80000000 in
   Ok (entity_index, dept_index))%result.

(* ================================================================= *)
(** ** External collaborators

    [stms.py] imports [bip32utils], [eth_account] and [mnemonic].  Their
    control flow is embedded below; the arithmetic they rest on (HMAC-SHA512,
    RIPEMD-160, secp256k1, Base58Check, the Ethereum address of a key, BIP-39)
    is an interface. *)

Record Point : Type := mkPoint { point_x : Z; point_y : Z }.

Class Collaborators : Type :=
  { (** [hmac.new(key, msg, hashlib.sha512).digest()] *)
    hmac_sha512 : bytes -> bytes -> bytes;
    (** [hashlib.new('ripemd160', b).digest()] *)
    ripemd160 : bytes -> bytes;
    (** [k * G] on secp256k1 *)
    scalar_mult_base : Z -> Point;
    (** [il * G + P]; [None] is the point at infinity *)
    add_scalar_base : Z -> Point -> option Point;
    (** [sqrt_mod(a, p)]; raises when [a] has no square root *)
    sqrt_mod : Z -> Z -> result Z;
    (** [Base58.check_encode] and [Base58.check_decode] *)
    b58check_encode : bytes -> pystr;
    b58check_decode : pystr -> result bytes;
    (** the checksummed address of a 32-byte private key *)
    key_address : bytes -> pystr;
    (** [Mnemonic("english").check] and [Mnemonic.to_seed] *)
    mnemonic_check : pystr -> bool;
    mnemonic_to_seed : pystr -> bytes }.

(** What the derivation engine uses of the collaborators.  Base58Check is
    asked to decode what it encoded only for a payload whose first byte is
    not zero, as the payload of every extended key is (version byte 0x04). *)
Class CollaboratorLaws (P : Collaborators) : Prop :=
  { hmac_sha512_length : forall key msg, length (hmac_sha512 key msg) = 64%nat;
    ripemd160_length : forall b, length (ripemd160 b) = 20%nat;
    b58check_roundtrip :
      forall raw, hd x00 raw <> x00 ->
                  b58check_decode (b58check_encode raw) = Ok raw }.

Definition CURVE_ORDER : Z :=
  0xFFFFFFFFFFFFFFFFFFFFFFFFFFFFFFFEBAAEDCE6AF48A03BBFD25E8CD0364141.
Definition FIELD_ORDER : Z :=
  0xFFFFFFFFFFFFFFFFFFFFFFFFFFFFFFFFFFFFFFFFFFFFFFFFFFFFFFFEFFFFFC2F.
Definition BIP32_HARDEN : Z := 0x80000000.
Definition MIN_ENTROPY_LEN : Z := 128.

Definition EX_MAIN_PRIVATE : list bytes := [[x04; x88; xad; xe4]].
Definition EX_MAIN_PUBLIC : list bytes :=
  [[x04; x88; xb2; x1e]; [x04; x9d; x7c; xb2]].
Definition EX_TEST_PRIVATE : list bytes := [[x04; x35; x83; x94]].
Definition EX_TEST_PUBLIC : list bytes := [[x04; x35; x87; xcf]].

Definition bytes_eqb (a b : bytes) : bool :=
  if list_eq_dec Byte.byte_eq_dec a b then true else false.

Definition version_in (v : bytes) (l : list bytes) : bool :=
  existsb (bytes_eqb v) l.

(** [struct.pack(">L", i)] *)
Definition pack_u32 (i : Z) : result bytes :=
  if (0 <=? i) && (i <? 2 ^ 32) then Ok (be_bytes 4 i) else Raise StructError.

(** A method call on a value that may be [None]. *)
Definition attr {A} (o : option A) : result A :=
  match o with
  | Some a => Ok a
  | None => Raise AttributeError
  end.

(* ================================================================= *)
(** ** [bip32utils.BIP32Key] *)

Record BIP32Key : Type := mkBIP32Key
  { public : bool;
    k : option Z;          (* secret exponent of the signing key *)
    K : Point;             (* verifying key *)
    C : bytes;             (* chain code *)
    depth : Z;
    index : Z;
    parent_fpr : bytes;
    testnet : bool }.

Section BIP32.
Context {P : Collaborators}.
Local Open Scope result_scope.

(** [BIP32Key(secret=.., public=False)]: [SigningKey.from_string] refuses a
    secret of the wrong length or outside [1, n). *)
Definition init_private (secret chain : bytes) (depth index : Z)
           (fpr : bytes) (testnet : bool) : result BIP32Key :=
  if negb (length secret =? 32)%nat then Raise MalformedPointError
  else
    let secexp := int_from_bytes_big secret in
    if negb ((1 <=? secexp) && (secexp <? CURVE_ORDER)) then
      Raise MalformedPointError
    else
      Ok (mkBIP32Key false (Some secexp) (scalar_mult_base secexp)
                     chain depth index fpr testnet).

(** [BIP32Key(secret=K, public=True)] *)
Definition init_public (K : Point) (chain : bytes) (depth index : Z)
           (fpr : bytes) (testnet : bool) : BIP32Key :=
  mkBIP32Key true None K chain depth index fpr testnet.

Definition fromEntropy (entropy : bytes) : result BIP32Key :=
  if negb (MIN_ENTROPY_LEN / 8 <=? Z.of_nat (length entropy)) then
    Raise (ValueError "Initial entropy")
  else
    let I := hmac_sha512 (map byte_of_ascii
                            (list_ascii_of_string "Bitcoin seed")) entropy in
    let Il := firstn 32 I in
    let Ir := skipn 32 I in
    init_private Il Ir 0 0 [x00; x00; x00; x00] false.

(** Compressed public key encoding. *)
Definition PublicKey (self : BIP32Key) : bytes :=
  let padx := be_bytes 32 (point_x (K self)) in
  if Z.odd (point_y (K self)) then x03 :: padx else x02 :: padx.

Definition PrivateKey (self : BIP32Key) : result bytes :=
  if public self then
    Raise (PyException "Publicly derived deterministic keys have no private half")
  else
    secexp <- attr (k self) ;; Ok (be_bytes 32 secexp).

Definition Identifier (self : BIP32Key) : bytes :=
  ripemd160 (sha256 (PublicKey self)).

Definition Fingerprint (self : BIP32Key) : bytes :=
  firstn 4 (Identifier self).

Definition hmac (self : BIP32Key) (data : bytes) : bytes * bytes :=
  let I := hmac_sha512 (C self) data in
  (firstn 32 I, skipn 32 I).

(** Private child derivation; [Ok None] is the library's [return None]. *)
Definition CKDpriv (self : BIP32Key) (i : Z) : result (option BIP32Key) :=
  i_str <- pack_u32 i ;;
  secexp <- attr (k self) ;;
  let data :=
    if negb (Z.land i BIP32_HARDEN =? 0)
    then x00 :: be_bytes 32 secexp ++ i_str
    else PublicKey self ++ i_str in
  let '(Il, Ir) := hmac self data in
  let Il_int := int_from_bytes_big Il in
  if Il_int >? CURVE_ORDER then Ok None
  else
    let k_int := (Il_int + secexp) mod CURVE_ORDER in
    if k_int =? 0 then Ok None
    else
      let secret := be_bytes 32 k_int in
      child <- init_private secret Ir (depth self + 1) i
                            (Fingerprint self) (testnet self) ;;
      Ok (Some child).

(** Public child derivation. *)
Definition CKDpub (self : BIP32Key) (i : Z) : result (option BIP32Key) :=
  if negb (Z.land i BIP32_HARDEN =? 0) then
    Raise (PyException
             "Cannot create a hardened child key using public child derivation")
  else
    i_str <- pack_u32 i ;;
    let data := PublicKey self ++ i_str in
    let '(Il, Ir) := hmac self data in
    let Il_int := int_from_bytes_big Il in
    if Il_int >=? CURVE_ORDER then Ok None
    else
      match add_scalar_base Il_int (K self) with
      | None => Ok None
      | Some K_i =>
          Ok (Some (init_public K_i Ir (depth self + 1) i
                                (Fingerprint self) (testnet self)))
      end.

Definition ChildKey (self : BIP32Key) (i : Z) : result (option BIP32Key) :=
  if negb (public self) then CKDpriv self i else CKDpub self i.

(** [ExtendedKey(private=True, encoded=True)], Base58Check encoded. *)
Definition ExtendedKey_with (self : BIP32Key) (private : bool)
  : result pystr :=
  if public self && private then
    Raise (PyException
             "Cannot export an extended private key from a public-only deterministic key")
  else
    let version :=
      if testnet self
      then if private then hd [] EX_TEST_PRIVATE else hd [] EX_TEST_PUBLIC
      else if private then hd [] EX_MAIN_PRIVATE else hd [] EX_MAIN_PUBLIC in
    if negb ((0 <=? depth self) && (depth self <? 256)) then
      Raise (ValueError "byte must be in range(0, 256)")
    else
      let depth_b := [byte_of_Z (depth self)] in
      let fpr := parent_fpr self in
      child <- pack_u32 (index self) ;;
      let chain := C self in
      data <- (if public self || negb private
               then Ok (PublicKey self)
               else (pk <- PrivateKey self ;; Ok (x00 :: pk))) ;;
      let raw := version ++ depth_b ++ fpr ++ child ++ chain ++ data in
      Ok (b58check_encode raw).

(** The call [key.ExtendedKey()] of the source: both defaults apply. *)
Definition ExtendedKey (self : BIP32Key) : result pystr :=
  ExtendedKey_with self true.

(** [BIP32Key.fromExtendedKey(xkey)] with the default [public=False]. *)
Definition fromExtendedKey (xkey : pystr) : result BIP32Key :=
  raw <- b58check_decode xkey ;;
  if negb (length raw =? 78)%nat then
    Raise (ValueError "extended key format wrong length")
  else
    let version := slice 0 4 raw in
    flags <-
      (if version_in version EX_MAIN_PRIVATE then Ok (false, false)
       else if version_in version EX_TEST_PRIVATE then Ok (true, false)
       else if version_in version EX_MAIN_PUBLIC then Ok (false, true)
       else if version_in version EX_TEST_PUBLIC then Ok (true, true)
       else Raise (ValueError "unknown extended key version")) ;;
    let '(is_testnet, is_pubkey) := flags in
    let depth := int_from_bytes_big (slice 4 5 raw) in
    let fpr := slice 5 9 raw in
    let child := int_from_bytes_big (slice 9 13 raw) in
    let chain := slice 13 45 raw in
    let secret := slice 45 78 raw in
    if negb is_pubkey then
      init_private (skipn 1 secret) chain depth child fpr is_testnet
    else
      let lsb := Z.land (int_from_bytes_big (firstn 1 secret)) 1 in
      let x := int_from_bytes_big (skipn 1 secret) in
      let ys := (x ^ 3 + 7) mod FIELD_ORDER in
      y <- sqrt_mod ys FIELD_ORDER ;;
      let y := if negb (Z.land y 1 =? lsb) then FIELD_ORDER - y else y in
      Ok (init_public (mkPoint x y) chain depth child fpr is_testnet).
End BIP32.

(* ================================================================= *)
(** ** [eth_account.Account.from_key(..).address] *)

(** The argument of [from_key]: the source passes a hex [str] in
    [generate_account] and raw [bytes] in [derive_addresses_from_xpub]. *)
Inductive key_arg : Type :=
| KeyStr (s : pystr)
| KeyBytes (b : bytes).

Definition unhex_digit (c : N) : option N :=
  (if (48 <=? c) && (c <=? 57) then Some (c - 48)
   else if (97 <=? c) && (c <=? 102) then Some (c - 87)
   else if (65 <=? c) && (c <=? 70) then Some (c - 55)
   else None)%N.

(** [binascii.unhexlify] *)
Fixpoint unhexlify (s : pystr) : option bytes :=
  match s with
  | [] => Some []
  | [_] => None
  | hi :: lo :: s' =>
      match unhex_digit hi, unhex_digit lo, unhexlify s' with
      | Some h, Some l, Some b => Some (byte_of_N (16 * h + l) :: b)
      | _, _, _ => None
      end
  end.

Definition has_0x_prefix (s : pystr) : bool :=
  match s with
  | 48%N :: c :: _ => (c =? 120)%N || (c =? 88)%N
  | _ => false
  end.

(** [HexBytes(str)] *)
Definition hexstr_to_bytes (hexstr : pystr) : result bytes :=
  let non_prefixed := if has_0x_prefix hexstr then skipn 2 hexstr else hexstr in
  let padded :=
    if Nat.odd (length hexstr) then 48%N :: non_prefixed else non_prefixed in
  if negb (forallb (fun c => (c <? 128)%N) padded) then Raise UnicodeEncodeError
  else
    match unhexlify padded with
    | Some b => Ok b
    | None => Raise (ValueError "binascii.Error")
    end.

Section EthAccount.
Context {P : Collaborators}.
Local Open Scope result_scope.

Definition Account_from_key_address (key : key_arg) : result pystr :=
  raw <- match key with
         | KeyStr s => hexstr_to_bytes s
         | KeyBytes b => Ok b
         end ;;
  if negb (length raw =? 32)%nat then
    Raise (ValueError "The private key must be exactly 32 bytes long")
  else Ok (key_address raw).
End EthAccount.

(* ================================================================= *)
(** ** [TreasurySystem] *)

Record TreasurySystem : Type := mkTreasurySystem
  { seed : bytes;
    root_key : BIP32Key }.

(** The [Dict[str, str]] that [generate_account] returns, by key. *)
Record Account : Type := mkAccount
  { path : pystr;
    private_key : pystr;
    address : pystr }.

(** A method: it reads and may replace the object, and returns or raises. *)
Definition method (A : Type) : Type :=
  TreasurySystem -> result A * TreasurySystem.

Definition mret {A} (r : result A) : method A := fun self => (r, self).

Definition mbind {A B} (m : method A) (f : A -> method B) : method B :=
  fun self =>
    match m self with
    | (inl e, self') => (inl e, self')
    | (inr a, self') => f a self'
    end.

(** Reading the attribute [self.root_key]. *)
Definition read_root_key : method BIP32Key :=
  fun self => (Ok (root_key self), self).

Declare Scope method_scope.
Delimit Scope method_scope with method.
Notation "x <- m ;; k" := (mbind m (fun x => k))
  (at level 61, m at next level, right associativity) : method_scope.
Notation "' pat <- m ;; k" := (mbind m (fun x => match x with pat => k end))
  (at level 61, pat pattern, m at next level, right associativity) : method_scope.

(** What a call returns, and the object it leaves. *)
Definition returned {A} (m : method A) (self : TreasurySystem) : result A :=
  fst (m self).
Definition object_after {A} (m : method A) (self : TreasurySystem)
  : TreasurySystem := snd (m self).

Section Treasury.
Context {P : Collaborators}.

(** [TreasurySystem.__init__]; the log line has no effect on the object. *)
Definition init (mnemonic : pystr) : result TreasurySystem :=
  (if negb (mnemonic_check mnemonic) then
     Raise (ValueError "Invalid BIP-39 mnemonic")
   else
     let seed := mnemonic_to_seed mnemonic in
     root_key <- fromEntropy seed ;;
     Ok (mkTreasurySystem seed root_key))%result.

(** The loop of [_derive_key].  The indices of a path are [int]s here, as
    the annotations of the callers have them, so the [isinstance] guard of
    the source, which raises [TypeError] on any other value, never fires. *)
Fixpoint derive_loop (current_key : option BIP32Key) (path : list Z)
         {struct path} : result (option BIP32Key) :=
  match path with
  | [] => Ok current_key
  | index :: rest =>
      (key <- attr current_key ;;
       next <- ChildKey key index ;;
       derive_loop next rest)%result
  end.

Definition _derive_key (path : list Z) : method (option BIP32Key) :=
  (current_key <- read_root_key ;;
   mret (derive_loop (Some current_key) path))%method.

Definition generate_account (entity department : pystr) (account_idx : Z)
  : method Account :=
  ('(e_idx, d_idx) <- mret (_hierarchical_hash entity department) ;;
   let derivation_path :=
     [0x8000002C; 0x8000003C; e_idx; d_idx; account_idx] in
   key <- _derive_key derivation_path ;;
   priv <- mret (rbind (attr key) PrivateKey) ;;
   let priv_key := hex priv in
   addr <- mret (Account_from_key_address (KeyStr priv_key)) ;;
   mret (Ok {| path := lit "m/44'/60'/" ++ decimal e_idx ++ lit "'/"
                         ++ decimal d_idx ++ lit "'/" ++ decimal account_idx;
               private_key := priv_key;
               address := addr |}))%method.

Definition get_audit_xpub (entity department : pystr) : method pystr :=
  ('(e_idx, d_idx) <- mret (_hierarchical_hash entity department) ;;
   let path := [0x8000002C; 0x8000003C; e_idx; d_idx] in
   key <- _derive_key path ;;
   mret (rbind (attr key) ExtendedKey))%method.

Definition get_dept_xprv (entity department : pystr) : method pystr :=
  ('(e_idx, d_idx) <- mret (_hierarchical_hash entity department) ;;
   let path := [0x8000002C; 0x8000003C; e_idx; d_idx] in
   key <- _derive_key path ;;
   mret (rbind (attr key) ExtendedKey))%method.

(** The comprehension of [derive_addresses_from_xpub], index by index. *)
Definition derive_address (audit_key : BIP32Key) (i : Z) : result pystr :=
  (child <- ChildKey audit_key i ;;
   child <- attr child ;;
   priv <- PrivateKey child ;;
   Account_from_key_address (KeyBytes priv))%result.

Fixpoint map_result {A B} (f : A -> result B) (l : list A)
  : result (list B) :=
  match l with
  | [] => Ok []
  | a :: l' =>
      (b <- f a ;;
       bs <- map_result f l' ;;
       Ok (b :: bs))%result
  end.

(** [range(count)] *)
Definition range (count : Z) : list Z :=
  map Z.of_nat (seq 0 (Z.to_nat count)).

(** A static method: it receives no [self]. *)
Definition derive_addresses_from_xpub (xpub : pystr) (count : Z)
  : result (list pystr) :=
  (audit_key <- fromExtendedKey xpub ;;
   map_result (derive_address audit_key) (range count))%result.
End Treasury.


(* ================================================================= *)
(** ** The spec's reading of an index *)

(** [be_u32]: four bytes read as a big-endian unsigned 32-bit number, as the
    specification writes the index computation. *)
Definition be_u32 (b : bytes) : Z :=
  match b with
  | [b0; b1; b2; b3] =>
      Z_of_byte b0 * 2 ^ 24 + Z_of_byte b1 * 2 ^ 16
      + Z_of_byte b2 * 2 ^ 8 + Z_of_byte b3
  | _ => 0
  end.

(** A character of lowercase hexadecimal: [0-9] or [a-f]. *)
Definition lower_hex_char (c : N) : bool :=
  ((48 <=? c) && (c <=? 57) || (97 <=? c) && (c <=? 102))%N.

(** A string of ASCII characters. *)
Definition is_ascii (s : pystr) : Prop := Forall (fun c => (c < 128)%N) s.

(** Two names whose entity indices coincide (their hashes share the first
    four bytes) and whose department indices nevertheless differ. *)
Definition colliding_entities : pystr * pystr :=
  (lit "Entity5800", lit "Entity43078").

(* ================================================================= *)
(** ** The public operations as a state machine *)

Inductive operation : Type :=
| GenerateAccount (entity department : pystr) (account_idx : Z)
| GetAuditXpub (entity department : pystr)
| GetDeptXprv (entity department : pystr)
| DeriveAddressesFromXpub (xpub : pystr) (count : Z).

Inductive output : Type :=
| OutAccount (r : result Account)
| OutKey (r : result pystr)
| OutAddresses (r : result (list pystr)).

Section Operations.
Context {P : Collaborators}.

(** One call of a public operation on the object [self]: what it returns and
    the object it leaves.  The static method receives no [self]. *)
Definition call (op : operation) (self : TreasurySystem)
  : output * TreasurySystem :=
  match op with
  | GenerateAccount e d i =>
      let '(r, self') := generate_account e d i self in (OutAccount r, self')
  | GetAuditXpub e d =>
      let '(r, self') := get_audit_xpub e d self in (OutKey r, self')
  | GetDeptXprv e d =>
      let '(r, self') := get_dept_xprv e d self in (OutKey r, self')
  | DeriveAddressesFromXpub xpub count =>
      (OutAddresses (derive_addresses_from_xpub xpub count), self)
  end.

(** The object after a sequence of calls. *)
Definition calls (ops : list operation) (self : TreasurySystem)
  : TreasurySystem :=
  fold_left (fun s op => snd (call op s)) ops self.

End Operations.

(* ================================================================= *)
(** ** Private keys as the library builds them *)

Section Invariant.
Context {P : Collaborators}.

(** A key made by [init_private]: it holds a secret exponent in [1, n), its
    verifying key, a 32-byte chain code, a 4-byte parent fingerprint and a
    32-bit child number. *)
Definition private_key_ok (key : BIP32Key) : Prop :=
  public key = false /\
  (exists secexp,
      k key = Some secexp /\ 1 <= secexp < CURVE_ORDER /\
      K key = scalar_mult_base secexp) /\
  length (C key) = 32%nat /\
  length (parent_fpr key) = 4%nat /\
  0 <= index key < 2 ^ 32.

(** The department path of an (entity, department) pair. *)
Definition dept_path (e_idx d_idx : Z) : list Z :=
  [0x8000002C; 0x8000003C; e_idx; d_idx].

End Invariant.

(** A method that leaves the object as it found it. *)
Definition read_only {A} (m : method A) : Prop :=
  forall self, object_after m self = self.

(** A character that [str(z)] prints for an [int]: a digit or the sign. *)
Definition is_digit_or_minus (c : N) : Prop :=
  (48 <= c <= 57)%N \/ c = 45%N.

(* ================================================================= *)
(** ** Stand-in collaborators

    An instance of the interface that can be run: hash-built stand-ins for
    HMAC-SHA512 and RIPEMD-160, the additive group of integers modulo the
    curve order in place of the curve, and a hexadecimal text form with the
    Base58Check checksum.  It serves to run the engine on concrete inputs. *)

Module Standin.

Definition hmac_sha512 (key msg : bytes) : bytes :=
  sha256 (key ++ x00 :: msg) ++ sha256 (msg ++ x01 :: key).

Definition ripemd160 (b : bytes) : bytes := firstn 20 (sha256 (xff :: b)).

Definition scalar_mult_base (k : Z) : Point :=
  let x := (7 * k) mod CURVE_ORDER in mkPoint x x.

Definition add_scalar_base (il : Z) (p : Point) : option Point :=
  let x := (7 * il + point_x p) mod CURVE_ORDER in
  if x =? 0 then None else Some (mkPoint x x).

Definition sqrt_mod (a p : Z) : result Z := Ok (a mod p).

Definition checksum (raw : bytes) : bytes := firstn 4 (sha256 (sha256 raw)).

Definition check_encode (raw : bytes) : pystr := hex (raw ++ checksum raw).

Definition check_decode (s : pystr) : result bytes :=
  match unhexlify s with
  | None => Raise (ValueError "invalid character")
  | Some b =>
      let n := (length b - 4)%nat in
      let raw := firstn n b in
      if bytes_eqb (skipn n b) (checksum raw)
      then Ok raw
      else Raise (ValueError "checksum error")
  end.

Definition key_address (raw : bytes) : pystr :=
  lit "0x" ++ hex (skipn 12 (sha256 raw)).

Definition mnemonic_check (m : pystr) : bool :=
  match encode m with
  | inr (_ :: _) => true
  | _ => false
  end.

Definition mnemonic_to_seed (m : pystr) : bytes :=
  match encode m with
  | inr b => sha256 b ++ sha256 (sha256 b)
  | inl _ => []
  end.

Definition collaborators : Collaborators :=
  Build_Collaborators hmac_sha512 ripemd160 scalar_mult_base add_scalar_base
                      sqrt_mod check_encode check_decode key_address
                      mnemonic_check mnemonic_to_seed.

(** The engine of the stand-in runs: a BIP-39 test phrase, and the object
    that [__init__] builds from it. *)
Definition phrase : pystr :=
  lit "legal winner thank year wave sausage worth useful legal winner thank yellow".

Definition engine :=
  Eval vm_compute in
    match @init collaborators phrase with
    | inr self => self
    | inl _ => mkTreasurySystem [] (mkBIP32Key true None (mkPoint 0 0) [] 0 0 [] false)
    end.

End Standin.

(* ================================================================= *)
(** * Properties *)

(** ** Bytes, words and digests *)

Lemma byte_of_to_N (b : byte) : byte_of_N (Byte.to_N b) = b.
Proof.
  unfold byte_of_N.
  rewrite N.mod_small by (pose proof (Byte.to_N_bounded b); lia).
  now rewrite Byte.of_to_N.
Qed.

Lemma to_N_byte_of_N (n : N) : Byte.to_N (byte_of_N n) = (n mod 256)%N.
Proof.
  unfold byte_of_N.
  destruct (Byte.of_N (n mod 256)) as [b|] eqn:E.
  - now apply Byte.to_of_N.
  - apply Byte.of_N_None_iff in E.
    pose proof (N.mod_upper_bound n 256). lia.
Qed.

Lemma Z_of_byte_range (b : byte) : 0 <= Z_of_byte b < 256.
Proof.
  unfold Z_of_byte. pose proof (Byte.to_N_bounded b). lia.
Qed.

Lemma Z_of_byte_of_Z (z : Z) : Z_of_byte (byte_of_Z z) = z mod 256.
Proof.
  unfold Z_of_byte, byte_of_Z.
  rewrite to_N_byte_of_N.
  pose proof (Z.mod_pos_bound z 256 ltac:(lia)).
  rewrite N.mod_small by lia.
  lia.
Qed.

Lemma byte_of_Z_of_byte (b : byte) : byte_of_Z (Z_of_byte b) = b.
Proof.
  unfold byte_of_Z.
  rewrite Z.mod_small by apply Z_of_byte_range.
  unfold Z_of_byte. rewrite N2Z.id. apply byte_of_to_N.
Qed.

Lemma sha256_length (msg : bytes) : length (sha256 msg) = 32%nat.
Proof.
  unfold sha256, SHA256.digest.
  now rewrite !length_app.
Qed.

(** FIPS 180-4 test vectors: the empty message and "abc". *)
Example sha256_empty :
  hex (sha256 [])
  = lit "e3b0c44298fc1c149afbf4c8996fb92427ae41e4649b934ca495991b7852b855".
Proof. vm_compute. reflexivity. Qed.

Example sha256_abc :
  hex (sha256 (map byte_of_N (lit "abc")))
  = lit "ba7816bf8f01cfea414140de5dae2223b00361a396177a9cb410ff61f20015ad".
Proof. vm_compute. reflexivity. Qed.

Lemma int_from_bytes_big_snoc (b : bytes) (x : byte) :
  int_from_bytes_big (b ++ [x]) = int_from_bytes_big b * 256 + Z_of_byte x.
Proof.
  unfold int_from_bytes_big. now rewrite fold_left_app.
Qed.

Lemma int_from_bytes_big_range (b : bytes) :
  0 <= int_from_bytes_big b < 256 ^ Z.of_nat (length b).
Proof.
  induction b as [|x b IH] using rev_ind.
  - cbn. lia.
  - rewrite int_from_bytes_big_snoc, length_app, Nat2Z.inj_add.
    cbn [length]. rewrite Z.pow_add_r by lia.
    pose proof (Z_of_byte_range x). change (256 ^ Z.of_nat 1) with 256. nia.
Qed.

Lemma length_be_bytes (n : nat) (z : Z) : length (be_bytes n z) = n.
Proof.
  revert z. induction n as [|n IH]; intros z; cbn [be_bytes].
  - reflexivity.
  - rewrite length_app, IH. cbn. lia.
Qed.

(** Writing a number on [n] bytes and reading it back. *)
Lemma int_from_be_bytes (n : nat) (z : Z) :
  int_from_bytes_big (be_bytes n z) = z mod 256 ^ Z.of_nat n.
Proof.
  revert z. induction n as [|n IH]; intros z.
  - cbn. now rewrite Z.mod_1_r.
  - cbn [be_bytes]. rewrite int_from_bytes_big_snoc, IH, Z_of_byte_of_Z.
    rewrite Nat2Z.inj_succ, Z.pow_succ_r by lia.
    rewrite Z.rem_mul_r by lia.
    lia.
Qed.

(** Reading bytes as a number and writing it back. *)
Lemma be_bytes_of_int (b : bytes) :
  be_bytes (length b) (int_from_bytes_big b) = b.
Proof.
  induction b as [|x b IH] using rev_ind.
  - reflexivity.
  - rewrite length_app, Nat.add_comm. cbn [length Nat.add be_bytes].
    rewrite int_from_bytes_big_snoc.
    pose proof (Z_of_byte_range x).
    replace ((int_from_bytes_big b * 256 + Z_of_byte x) / 256)
      with (int_from_bytes_big b)
      by (apply Z.div_unique with (r := Z_of_byte x); lia).
    rewrite IH. f_equal. f_equal.
    unfold byte_of_Z.
    rewrite Z.add_comm, Z.mod_add by lia.
    rewrite Z.mod_small by lia.
    unfold Z_of_byte. rewrite N2Z.id. apply byte_of_to_N.
Qed.

(** The source's [int.from_bytes(h[:4], 'big')] is the spec's [be_u32]. *)
Lemma int_from_bytes_big_be_u32 (h : bytes) :
  (4 <= length h)%nat ->
  int_from_bytes_big (firstn 4 h) = be_u32 (firstn 4 h).
Proof.
  intros H.
  destruct h as [|b0 [|b1 [|b2 [|b3 h]]]]; cbn [length] in H; try lia.
  cbn [firstn be_u32]. unfold int_from_bytes_big. cbn [fold_left]. lia.
Qed.

Lemma be_u32_range (b : bytes) : 0 <= be_u32 b < 2 ^ 32.
Proof.
  destruct b as [|b0 [|b1 [|b2 [|b3 [|b4 b]]]]]; cbn [be_u32]; try lia.
  pose proof (Z_of_byte_range b0). pose proof (Z_of_byte_range b1).
  pose proof (Z_of_byte_range b2). pose proof (Z_of_byte_range b3). lia.
Qed.

(** Forcing the hardened bit puts an index in [2^31, 2^32). *)
Lemma hardened_range (x : Z) :
  0 <= x < 2 ^ 32 ->
  2 ^ 31 <= Z.lor x 0x80000000 < 2 ^ 32 /\
  Z.testbit (Z.lor x 0x80000000) 31 = true.
Proof.
  intros Hx.
  assert (Hbit : Z.testbit (Z.lor x 0x80000000) 31 = true).
  { rewrite Z.lor_spec. change 0x80000000 with (2 ^ 31).
    rewrite Z.pow2_bits_true by lia. apply orb_true_r. }
  assert (Hnn : 0 <= Z.lor x 0x80000000) by (apply Z.lor_nonneg; lia).
  split; [split|exact Hbit].
  - destruct (Z.lt_ge_cases (Z.lor x 0x80000000) (2 ^ 31)) as [Hlt|]; [|lia].
    rewrite Z.bits_above_log2 in Hbit; [discriminate|lia|].
    destruct (Z.eq_dec (Z.lor x 0x80000000) 0) as [E|NE].
    + rewrite E. cbn. lia.
    + apply Z.log2_lt_pow2; lia.
  - destruct (Z.eq_dec (Z.lor x 0x80000000) 0) as [E|NE]; [rewrite E; lia|].
    apply Z.log2_lt_pow2; [lia|].
    rewrite Z.log2_lor by lia.
    apply Z.max_lub_lt.
    + destruct (Z.eq_dec x 0) as [->|]; [cbn; lia|].
      apply Z.log2_lt_pow2; lia.
    + reflexivity.
Qed.

(** ** Text: [encode], [hex], [unhexlify] *)

Lemma rbind_ok {A B} (m : result A) (f : A -> result B) (b : B) :
  rbind m f = Ok b -> exists a, m = Ok a /\ f a = Ok b.
Proof.
  destruct m as [e|a]; cbn; [discriminate|]. intros H. now exists a.
Qed.

Lemma encode_app (s t : pystr) :
  encode (s ++ t) =
  (a <- encode s ;; b <- encode t ;; Ok (a ++ b))%result.
Proof.
  induction s as [|c s IH]; cbn [app encode].
  - destruct (encode t); reflexivity.
  - destruct (utf8_char c) as [e|x]; cbn [rbind]; [reflexivity|].
    rewrite IH.
    destruct (encode s) as [e|a]; cbn [rbind]; [reflexivity|].
    destruct (encode t) as [e|b]; cbn [rbind]; [reflexivity|].
    now rewrite app_assoc.
Qed.

Lemma utf8_char_ascii (c : N) :
  (c < 128)%N -> utf8_char c = Ok [byte_of_N c].
Proof.
  intros H. unfold utf8_char.
  now replace (c <? 0x80)%N with true by (symmetry; apply N.ltb_lt; exact H).
Qed.

Lemma encode_ascii (s : pystr) :
  is_ascii s -> encode s = Ok (map byte_of_N s).
Proof.
  induction 1 as [|c s Hc _ IH]; cbn [encode map]; [reflexivity|].
  now rewrite utf8_char_ascii, IH.
Qed.

Lemma utf8_char_scalar (c : N) :
  scalar_value c -> exists b, utf8_char c = Ok b.
Proof.
  intros [Hlt Hs]. unfold utf8_char. rewrite Hs.
  destruct (c <? 0x80)%N; [eauto|].
  destruct (c <? 0x800)%N; [eauto|].
  destruct (c <? 0x10000)%N; [eauto|].
  replace (c <? 0x110000)%N with true by (symmetry; now apply N.ltb_lt).
  eauto.
Qed.

(** [encode] returns on every string of scalar values ... *)
Lemma encodable_encode (s : pystr) :
  encodable s -> exists b, encode s = Ok b.
Proof.
  induction 1 as [|c s Hc _ [bs IH]]; cbn [encode]; [now exists []|].
  destruct (utf8_char_scalar c Hc) as [b Hb].
  rewrite Hb, IH. cbn. eauto.
Qed.

(** ... and raises as soon as one code point is a surrogate. *)
Lemma encode_surrogate (s t : pystr) (c : N) :
  encodable s -> is_surrogate c = true ->
  encode (s ++ c :: t) = Raise UnicodeEncodeError.
Proof.
  intros Hs Hc. rewrite encode_app.
  destruct (encodable_encode s Hs) as [a ->]. cbn [rbind encode].
  unfold utf8_char. rewrite Hc.
  unfold is_surrogate in Hc. apply andb_true_iff in Hc as [Hlo Hhi].
  apply N.leb_le in Hlo, Hhi.
  replace (c <? 0x80)%N with false by (symmetry; apply N.ltb_ge; lia).
  replace (c <? 0x800)%N with false by (symmetry; apply N.ltb_ge; lia).
  replace (c <? 0x10000)%N with true by (symmetry; apply N.ltb_lt; lia).
  reflexivity.
Qed.

Lemma is_ascii_app (s t : pystr) : is_ascii s -> is_ascii t -> is_ascii (s ++ t).
Proof. intros Hs Ht. apply Forall_app. now split. Qed.

Lemma encodable_app (s t : pystr) :
  encodable s -> encodable t -> encodable (s ++ t).
Proof. intros Hs Ht. apply Forall_app. now split. Qed.

Lemma is_ascii_encodable (s : pystr) : is_ascii s -> encodable s.
Proof.
  apply Forall_impl. intros c Hc. split; [lia|].
  unfold is_surrogate. apply andb_false_iff. left. apply N.leb_gt. lia.
Qed.

Lemma hex_digit_spec (n : N) :
  (n < 16)%N ->
  lower_hex_char (hex_digit n) = true /\ unhex_digit (hex_digit n) = Some n.
Proof.
  intros H. destruct n as [|p]; [split; reflexivity|].
  do 5 (try destruct p as [p|p|]); try (split; reflexivity); lia.
Qed.

Lemma hex_byte_spec (x : byte) (s : pystr) :
  unhexlify (hex_byte x ++ s) =
  match unhexlify s with Some b => Some (x :: b) | None => None end.
Proof.
  unfold hex_byte. cbn [app unhexlify].
  pose proof (Byte.to_N_bounded x) as Hx.
  destruct (hex_digit_spec (Byte.to_N x / 16)) as [_ ->];
    [apply N.Div0.div_lt_upper_bound; lia|].
  destruct (hex_digit_spec (Byte.to_N x mod 16)) as [_ ->];
    [apply N.mod_upper_bound; lia|].
  rewrite <- N.div_mod by lia. rewrite byte_of_to_N. reflexivity.
Qed.

(** [unhexlify] inverts [hex]. *)
Lemma unhexlify_hex (b : bytes) : unhexlify (hex b) = Some b.
Proof.
  induction b as [|x b IH]; [reflexivity|].
  cbn [hex flat_map]. fold (hex b). now rewrite hex_byte_spec, IH.
Qed.

Lemma hex_inj (a b : bytes) : hex a = hex b -> a = b.
Proof.
  intros H. apply (f_equal unhexlify) in H.
  rewrite !unhexlify_hex in H. congruence.
Qed.

Lemma hex_lower (b : bytes) : Forall (fun c => lower_hex_char c = true) (hex b).
Proof.
  induction b as [|x b IH]; [constructor|].
  cbn [hex flat_map]. fold (hex b). unfold hex_byte. cbn [app].
  pose proof (Byte.to_N_bounded x) as Hx.
  constructor; [|constructor; [|exact IH]].
  - apply hex_digit_spec. apply N.Div0.div_lt_upper_bound; lia.
  - apply hex_digit_spec. apply N.mod_upper_bound; lia.
Qed.

Lemma length_hex (b : bytes) : length (hex b) = (2 * length b)%nat.
Proof.
  induction b as [|x b IH]; [reflexivity|].
  cbn [hex flat_map]. fold (hex b). rewrite length_app, IH. cbn. lia.
Qed.

Lemma hex_is_ascii (b : bytes) : is_ascii (hex b).
Proof.
  eapply Forall_impl; [|apply hex_lower].
  intros c Hc. unfold lower_hex_char in Hc.
  apply orb_true_iff in Hc as [Hc|Hc]; apply andb_true_iff in Hc as [_ Hc];
    apply N.leb_le in Hc; lia.
Qed.

(** No hexadecimal text of bytes starts with the prefix [0x]. *)
Lemma hex_no_prefix (b : bytes) : has_0x_prefix (hex b) = false.
Proof.
  destruct b as [|x b]; [reflexivity|].
  pose proof (hex_lower (x :: b)) as H.
  cbn [hex flat_map] in *. unfold hex_byte in *. cbn [app] in *.
  inversion H as [|? ? _ H1]; subst. inversion H1 as [|? ? H2 _]; subst.
  unfold has_0x_prefix.
  destruct (hex_digit (Byte.to_N x / 16)) as [|p]; [reflexivity|].
  set (c := hex_digit (Byte.to_N x mod 16)) in *.
  assert (Hc : ((c =? 120) || (c =? 88))%N = false).
  { unfold lower_hex_char in H2.
    apply orb_false_iff. split; apply N.eqb_neq; intros ->; discriminate. }
  rewrite Hc. now repeat (destruct p as [p|p|]; try reflexivity).
Qed.

Lemma hexstr_to_bytes_hex (b : bytes) : hexstr_to_bytes (hex b) = Ok b.
Proof.
  unfold hexstr_to_bytes.
  rewrite hex_no_prefix, length_hex.
  replace (Nat.odd (2 * length b)) with false
    by (symmetry; rewrite <- Nat.negb_even, Nat.even_mul; reflexivity).
  replace (forallb (fun c => (c <? 128)%N) (hex b)) with true.
  - cbn [negb]. now rewrite unhexlify_hex.
  - symmetry. apply forallb_forall. intros c Hc.
    pose proof (hex_is_ascii b) as Ha.
    apply N.ltb_lt. revert c Hc. now apply Forall_forall.
Qed.

(** ** PathHasher: [_hierarchical_hash] *)

Lemma lit_ENTITY_ascii : is_ascii (lit "ENTITY:").
Proof. unfold is_ascii. repeat constructor. Qed.

Lemma lit_DEPT_ascii : is_ascii (lit "DEPT:").
Proof. unfold is_ascii. repeat constructor. Qed.

Lemma lit_colon_ascii : is_ascii (lit ":").
Proof. unfold is_ascii. repeat constructor. Qed.

Lemma dept_input_encodable (h : bytes) (department : pystr) :
  encodable department -> encodable (dept_input_str h department).
Proof.
  intros H. unfold dept_input_str.
  apply encodable_app; [apply is_ascii_encodable, lit_DEPT_ascii|].
  apply encodable_app; [apply is_ascii_encodable, hex_is_ascii|].
  apply encodable_app; [apply is_ascii_encodable, lit_colon_ascii|exact H].
Qed.

(** The index the source computes from a digest is the spec's
    [be_u32(hash[0:4]) | 0x80000000], a 32-bit value with bit 31 set. *)
Lemma index_of_digest (msg : bytes) :
  Z.lor (int_from_bytes_big (firstn 4 (sha256 msg))) 0x80000000
  = Z.lor (be_u32 (firstn 4 (sha256 msg))) 0x80000000
  /\ 2 ^ 31 <= Z.lor (be_u32 (firstn 4 (sha256 msg))) 0x80000000 < 2 ^ 32.
Proof.
  rewrite int_from_bytes_big_be_u32 by (rewrite sha256_length; lia).
  split; [reflexivity|]. apply hardened_range, be_u32_range.
Qed.

(** C4, as the code has it.  For entity and department strings that UTF-8
    can encode (no surrogate code point), [_hierarchical_hash] returns, and
    returns [entity_index = be_u32(SHA256("ENTITY:" || entity)[0:4]) |
    0x80000000] and [dept_index = be_u32(SHA256("DEPT:" || hex(entity_hash)
    || ":" || department)[0:4]) | 0x80000000]; both indices lie in
    [2^31, 2^32), and any two calls on the same arguments return the same
    value. *)
Theorem hierarchical_hash_spec (entity department : pystr) :
  encodable entity -> encodable department ->
  exists entity_msg dept_msg,
    encode (lit "ENTITY:" ++ entity) = Ok entity_msg /\
    encode (lit "DEPT:" ++ hex (sha256 entity_msg) ++ lit ":" ++ department)
      = Ok dept_msg /\
    _hierarchical_hash entity department
      = Ok (Z.lor (be_u32 (firstn 4 (sha256 entity_msg))) 0x80000000,
            Z.lor (be_u32 (firstn 4 (sha256 dept_msg))) 0x80000000) /\
    2 ^ 31 <= Z.lor (be_u32 (firstn 4 (sha256 entity_msg))) 0x80000000 < 2 ^ 32 /\
    2 ^ 31 <= Z.lor (be_u32 (firstn 4 (sha256 dept_msg))) 0x80000000 < 2 ^ 32 /\
    (forall first_call second_call,
        _hierarchical_hash entity department = first_call ->
        _hierarchical_hash entity department = second_call ->
        first_call = second_call).
Proof.
  intros He Hd.
  destruct (encodable_encode (lit "ENTITY:" ++ entity)) as [entity_msg Hem].
  { apply encodable_app; [apply is_ascii_encodable, lit_ENTITY_ascii|exact He]. }
  destruct (encodable_encode (dept_input_str (sha256 entity_msg) department))
    as [dept_msg Hdm].
  { now apply dept_input_encodable. }
  exists entity_msg, dept_msg.
  destruct (index_of_digest entity_msg) as [Ee Re].
  destruct (index_of_digest dept_msg) as [Ed Rd].
  repeat split; try assumption; try lia.
  - unfold _hierarchical_hash. rewrite Hem. cbn [rbind]. rewrite Hdm.
    cbn [rbind]. now rewrite Ee, Ed.
  - congruence.
Qed.

(** The hypotheses of [hierarchical_hash_spec] at the scenario of the
    specification: the golden indices of ("GroupA", "Finance"). *)
Lemma hierarchical_hash_GroupA_Finance :
  encodable (lit "GroupA") /\ encodable (lit "Finance") /\
  _hierarchical_hash (lit "GroupA") (lit "Finance")
    = Ok (2585098242, 3778387289).
Proof.
  assert (He : encodable (lit "GroupA"))
    by (apply is_ascii_encodable; unfold is_ascii; repeat constructor).
  assert (Hd : encodable (lit "Finance"))
    by (apply is_ascii_encodable; unfold is_ascii; repeat constructor).
  split; [exact He|split; [exact Hd|]].
  destruct (hierarchical_hash_spec (lit "GroupA") (lit "Finance") He Hd)
    as (em & dm & _ & _ & _ & _ & _ & Hdet).
  apply (Hdet _ _ eq_refl). vm_compute. reflexivity.
Defined.

(** C4 as stated fails: a Python string may hold a lone surrogate, and
    [.encode()] raises on it, so the function is not total on strings. *)
Lemma hierarchical_hash_surrogate :
  _hierarchical_hash [0xD800%N] (lit "Finance") = Raise UnicodeEncodeError.
Proof. reflexivity. Qed.

Lemma byte_of_N_ascii_inj (s t : pystr) :
  is_ascii s -> is_ascii t -> map byte_of_N s = map byte_of_N t -> s = t.
Proof.
  intros Hs. revert t.
  induction Hs as [|c s Hc _ IH]; intros t Ht E; destruct Ht as [|d t Hd Ht];
    cbn [map] in E; try discriminate; [reflexivity|].
  injection E as Ecd Est.
  apply (f_equal Byte.to_N) in Ecd. rewrite !to_N_byte_of_N in Ecd.
  rewrite !N.mod_small in Ecd by lia.
  subst d. f_equal. now apply IH.
Qed.

(** The bytes hashed at the department layer: the tag, the hexadecimal
    entity hash and the separator as ASCII, then the encoded department. *)
Lemma encode_dept_input (h : bytes) (department : pystr) (b : bytes) :
  encode (dept_input_str h department) = Ok b ->
  exists d,
    encode department = Ok d /\
    b = map byte_of_N (lit "DEPT:") ++ map byte_of_N (hex h)
        ++ map byte_of_N (lit ":") ++ d.
Proof.
  unfold dept_input_str. rewrite !encode_app.
  rewrite (encode_ascii _ lit_DEPT_ascii), (encode_ascii _ (hex_is_ascii h)),
    (encode_ascii _ lit_colon_ascii).
  cbn [rbind].
  destruct (encode department) as [e|d]; cbn [rbind]; [discriminate|].
  intros [= <-]. now exists d.
Qed.

Lemma dept_input_differs (h1 h2 : bytes) (department : pystr) :
  h1 <> h2 ->
  dept_input_str h1 department <> dept_input_str h2 department /\
  (forall b1 b2,
      encode (dept_input_str h1 department) = Ok b1 ->
      encode (dept_input_str h2 department) = Ok b2 ->
      b1 <> b2).
Proof.
  intros Hne. split.
  - unfold dept_input_str. intros E.
    apply app_inv_head, app_inv_tail in E. now apply Hne, hex_inj.
  - intros b1 b2 E1 E2 Eb.
    apply encode_dept_input in E1 as (d1 & Hd1 & Hb1).
    apply encode_dept_input in E2 as (d2 & Hd2 & Hb2).
    rewrite Hd1 in Hd2. injection Hd2 as <-.
    rewrite Hb1, Hb2 in Eb.
    apply app_inv_head, app_inv_tail in Eb.
    apply Hne, hex_inj, byte_of_N_ascii_inj; auto using hex_is_ascii.
Qed.

(** C7.  Two entity names whose 32-byte entity hashes differ give different
    department-hash inputs ["DEPT:" + hex(entity_hash) + ":" + D] for every
    department name [D], as text and as the bytes that are hashed; nothing is
    assumed of the truncated 4-byte entity indices, which may be equal. *)
Theorem dept_input_depends_on_full_entity_hash
  (E1 E2 D : pystr) (m1 m2 : bytes) :
  encode (lit "ENTITY:" ++ E1) = Ok m1 ->
  encode (lit "ENTITY:" ++ E2) = Ok m2 ->
  sha256 m1 <> sha256 m2 ->
  dept_input_str (sha256 m1) D <> dept_input_str (sha256 m2) D /\
  (forall b1 b2,
      encode (dept_input_str (sha256 m1) D) = Ok b1 ->
      encode (dept_input_str (sha256 m2) D) = Ok b2 ->
      b1 <> b2).
Proof.
  intros _ _ Hne. now apply dept_input_differs.
Qed.

Lemma colliding_entities_diverge :
  exists m1 m2,
    encode (lit "ENTITY:" ++ fst colliding_entities) = Ok m1 /\
    encode (lit "ENTITY:" ++ snd colliding_entities) = Ok m2 /\
    sha256 m1 <> sha256 m2 /\
    dept_input_str (sha256 m1) (lit "Finance")
      <> dept_input_str (sha256 m2) (lit "Finance") /\
    _hierarchical_hash (fst colliding_entities) (lit "Finance")
      = Ok (2951731810, 3249892774) /\
    _hierarchical_hash (snd colliding_entities) (lit "Finance")
      = Ok (2951731810, 3922217391).
Proof.
  eexists. eexists.
  split; [vm_compute; reflexivity|].
  split; [vm_compute; reflexivity|].
  assert (Hne : forall a b : bytes, bytes_eqb a b = false -> a <> b).
  { intros a b. unfold bytes_eqb. now destruct (list_eq_dec _ a b). }
  match goal with
  | |- ?h1 <> ?h2 /\ _ =>
      assert (H : h1 <> h2) by (apply Hne; vm_compute; reflexivity)
  end.
  split; [exact H|].
  split.
  - exact (proj1 (dept_input_depends_on_full_entity_hash
                    (fst colliding_entities) (snd colliding_entities)
                    (lit "Finance") _ _ eq_refl eq_refl H)).
  - split; vm_compute; reflexivity.
Defined.

(** ** The engine's object is read-only *)

Section Frame.
Context {P : Collaborators}.

Lemma read_only_mret {A} (r : result A) : read_only (mret r).
Proof. intros self. reflexivity. Qed.

Lemma read_only_read_root_key : read_only read_root_key.
Proof. intros self. reflexivity. Qed.

Lemma read_only_mbind {A B} (m : method A) (f : A -> method B) :
  read_only m -> (forall a, read_only (f a)) -> read_only (mbind m f).
Proof.
  intros Hm Hf self. unfold object_after, mbind.
  specialize (Hm self). unfold object_after in Hm.
  destruct (m self) as [[e|a] self']; cbn [snd] in *; subst self'.
  - reflexivity.
  - apply Hf.
Qed.

Lemma read_only_derive_key (path : list Z) : read_only (_derive_key path).
Proof.
  apply read_only_mbind; [apply read_only_read_root_key|].
  intros key. apply read_only_mret.
Qed.

Lemma read_only_generate_account (e d : pystr) (i : Z) :
  read_only (generate_account e d i).
Proof.
  unfold generate_account.
  apply read_only_mbind; [apply read_only_mret|]. intros [e_idx d_idx].
  apply read_only_mbind; [apply read_only_derive_key|]. intros key.
  apply read_only_mbind; [apply read_only_mret|]. intros priv.
  apply read_only_mbind; [apply read_only_mret|]. intros addr.
  apply read_only_mret.
Qed.

Lemma read_only_get_audit_xpub (e d : pystr) : read_only (get_audit_xpub e d).
Proof.
  unfold get_audit_xpub.
  apply read_only_mbind; [apply read_only_mret|]. intros [e_idx d_idx].
  apply read_only_mbind; [apply read_only_derive_key|]. intros key.
  apply read_only_mret.
Qed.

Lemma read_only_get_dept_xprv (e d : pystr) : read_only (get_dept_xprv e d).
Proof.
  unfold get_dept_xprv.
  apply read_only_mbind; [apply read_only_mret|]. intros [e_idx d_idx].
  apply read_only_mbind; [apply read_only_derive_key|]. intros key.
  apply read_only_mret.
Qed.

Lemma call_preserves (op : operation) (self : TreasurySystem) :
  snd (call op self) = self.
Proof.
  destruct op as [e d i|e d|e d|xpub count]; cbn [call].
  - pose proof (read_only_generate_account e d i self) as H.
    unfold object_after in H. now destruct (generate_account e d i self).
  - pose proof (read_only_get_audit_xpub e d self) as H.
    unfold object_after in H. now destruct (get_audit_xpub e d self).
  - pose proof (read_only_get_dept_xprv e d self) as H.
    unfold object_after in H. now destruct (get_dept_xprv e d self).
  - reflexivity.
Qed.

Lemma calls_preserve (ops : list operation) (self : TreasurySystem) :
  calls ops self = self.
Proof.
  unfold calls. revert self.
  induction ops as [|op ops IH]; intros self; cbn [fold_left].
  - reflexivity.
  - now rewrite call_preserves.
Qed.

(** C10.  No public operation changes the engine's object: after any
    sequence of calls of [generate_account], [get_audit_xpub],
    [get_dept_xprv] and [derive_addresses_from_xpub] the fields [seed] and
    [root_key] are those set at construction, and a call returns what the
    same call returned on the object as constructed. *)
Theorem public_operations_leave_engine_unchanged
  (ops : list operation) (op : operation) (self : TreasurySystem) :
  seed (calls ops self) = seed self /\
  root_key (calls ops self) = root_key self /\
  snd (call op self) = self /\
  fst (call op (calls ops self)) = fst (call op self).
Proof.
  rewrite calls_preserve. repeat split. apply call_preserves.
Qed.

End Frame.

(** ** [bip32utils]: private keys and their text form *)

Lemma CURVE_ORDER_bound : 1 < CURVE_ORDER < 2 ^ 256.
Proof. split; reflexivity. Qed.

Lemma firstn_app_exact {A} (n : nat) (l r : list A) :
  length l = n -> firstn n (l ++ r) = l.
Proof.
  intros <-. rewrite firstn_app, Nat.sub_diag, firstn_all. cbn.
  apply app_nil_r.
Qed.

Lemma skipn_app_exact {A} (n : nat) (l r : list A) :
  length l = n -> skipn n (l ++ r) = r.
Proof.
  intros <-. now rewrite skipn_app, Nat.sub_diag, skipn_all.
Qed.

Lemma pack_u32_ok (i : Z) :
  0 <= i < 2 ^ 32 -> pack_u32 i = Ok (be_bytes 4 i).
Proof.
  intros H. unfold pack_u32.
  replace (0 <=? i) with true by (symmetry; apply Z.leb_le; lia).
  now replace (i <? 2 ^ 32) with true by (symmetry; apply Z.ltb_lt; lia).
Qed.

Lemma pack_u32_inv (i : Z) (b : bytes) :
  pack_u32 i = Ok b -> 0 <= i < 2 ^ 32 /\ b = be_bytes 4 i.
Proof.
  unfold pack_u32.
  destruct (0 <=? i) eqn:E1; [|discriminate].
  destruct (i <? 2 ^ 32) eqn:E2; [|discriminate].
  cbn [andb]. intros [= <-].
  apply Z.leb_le in E1. apply Z.ltb_lt in E2. auto.
Qed.

Lemma pack_u32_out_of_range (i : Z) :
  i < 0 \/ 2 ^ 32 <= i -> pack_u32 i = Raise StructError.
Proof.
  intros H. unfold pack_u32.
  destruct (0 <=? i) eqn:E1; [|reflexivity].
  destruct (i <? 2 ^ 32) eqn:E2; [|reflexivity].
  apply Z.leb_le in E1. apply Z.ltb_lt in E2. lia.
Qed.

Section PrivateKeys.
Context {P : Collaborators}.

Lemma init_private_inv secret chain depth0 index0 fpr testnet0 key :
  init_private secret chain depth0 index0 fpr testnet0 = Ok key ->
  length secret = 32%nat /\
  1 <= int_from_bytes_big secret < CURVE_ORDER /\
  key = mkBIP32Key false (Some (int_from_bytes_big secret))
                   (scalar_mult_base (int_from_bytes_big secret))
                   chain depth0 index0 fpr testnet0.
Proof.
  unfold init_private.
  destruct (length secret =? 32)%nat eqn:El; cbn [negb]; [|discriminate].
  destruct (1 <=? int_from_bytes_big secret) eqn:E1; [|discriminate].
  destruct (int_from_bytes_big secret <? CURVE_ORDER) eqn:E2; [|discriminate].
  cbn [andb negb]. intros [= <-].
  apply Nat.eqb_eq in El. apply Z.leb_le in E1. apply Z.ltb_lt in E2. auto.
Qed.

Lemma init_private_be_bytes secexp chain depth0 index0 fpr testnet0 :
  1 <= secexp < CURVE_ORDER ->
  init_private (be_bytes 32 secexp) chain depth0 index0 fpr testnet0
  = Ok (mkBIP32Key false (Some secexp) (scalar_mult_base secexp)
                   chain depth0 index0 fpr testnet0).
Proof.
  intros H. pose proof CURVE_ORDER_bound as Hn.
  unfold init_private. rewrite length_be_bytes. cbn [Nat.eqb negb].
  rewrite int_from_be_bytes.
  change (256 ^ Z.of_nat 32) with (2 ^ 256).
  rewrite Z.mod_small by lia.
  replace (1 <=? secexp) with true by (symmetry; apply Z.leb_le; lia).
  now replace (secexp <? CURVE_ORDER) with true
    by (symmetry; apply Z.ltb_lt; lia).
Qed.

Lemma private_key_ok_PrivateKey (key : BIP32Key) :
  private_key_ok key ->
  exists secexp,
    k key = Some secexp /\ 1 <= secexp < CURVE_ORDER /\
    PrivateKey key = Ok (be_bytes 32 secexp).
Proof.
  intros (Hpub & (secexp & Hk & Hr & _) & _).
  exists secexp. repeat split; try assumption; try lia.
  unfold PrivateKey. now rewrite Hpub, Hk.
Qed.

End PrivateKeys.

Lemma slice_app_take {A} (b : nat) (l r : list A) :
  length l = b -> slice 0 b (l ++ r) = l.
Proof.
  intros H. unfold slice. cbn [skipn]. rewrite Nat.sub_0_r.
  now apply firstn_app_exact.
Qed.

Lemma slice_app_skip {A} (n a b : nat) (l r : list A) :
  length l = n -> (n <= a)%nat ->
  slice a b (l ++ r) = slice (a - n) (b - n) r.
Proof.
  intros Hl Ha. unfold slice.
  rewrite skipn_app, Hl, skipn_all2 by lia. cbn [app].
  f_equal. lia.
Qed.

(** The 78 bytes of an extended key, field by field. *)
Lemma raw_fields (v d f c ch dat : bytes) :
  length v = 4%nat -> length d = 1%nat -> length f = 4%nat ->
  length c = 4%nat -> length ch = 32%nat -> length dat = 33%nat ->
  length (v ++ d ++ f ++ c ++ ch ++ dat) = 78%nat /\
  slice 0 4 (v ++ d ++ f ++ c ++ ch ++ dat) = v /\
  slice 4 5 (v ++ d ++ f ++ c ++ ch ++ dat) = d /\
  slice 5 9 (v ++ d ++ f ++ c ++ ch ++ dat) = f /\
  slice 9 13 (v ++ d ++ f ++ c ++ ch ++ dat) = c /\
  slice 13 45 (v ++ d ++ f ++ c ++ ch ++ dat) = ch /\
  slice 45 78 (v ++ d ++ f ++ c ++ ch ++ dat) = dat.
Proof.
  intros Hv Hd Hf Hc Hch Hdat.
  split; [rewrite !length_app; lia|].
  split; [now apply slice_app_take|].
  rewrite !(slice_app_skip 4 _ _ v) by (assumption || lia). cbn [Nat.sub].
  split; [now apply slice_app_take|].
  rewrite !(slice_app_skip 1 _ _ d) by (assumption || lia). cbn [Nat.sub].
  split; [now apply slice_app_take|].
  rewrite !(slice_app_skip 4 _ _ f) by (assumption || lia). cbn [Nat.sub].
  split; [now apply slice_app_take|].
  rewrite !(slice_app_skip 4 _ _ c) by (assumption || lia). cbn [Nat.sub].
  split; [now apply slice_app_take|].
  rewrite !(slice_app_skip 32 _ _ ch) by (assumption || lia). cbn [Nat.sub].
  rewrite <- (app_nil_r dat) at 1. now apply slice_app_take.
Qed.

Lemma map_result_ok {A B} (f : A -> result B) (l : list A) :
  (forall a, In a l -> exists b, f a = Ok b) ->
  exists r, map_result f l = Ok r.
Proof.
  induction l as [|a l IH]; intros H; cbn [map_result].
  - now exists [].
  - destruct (H a (or_introl eq_refl)) as [b ->].
    destruct IH as [r ->]; [intros x Hx; apply H; now right|].
    cbn [rbind]. eauto.
Qed.

Lemma map_result_nth {A B} (f : A -> result B) (l : list A) (r : list B) :
  map_result f l = Ok r ->
  length r = length l /\
  forall n a, nth_error l n = Some a ->
              exists b, nth_error r n = Some b /\ f a = Ok b.
Proof.
  revert r. induction l as [|a l IH]; intros r; cbn [map_result].
  - intros [= <-]. split; [reflexivity|]. intros [|n] x; discriminate.
  - destruct (f a) as [e|b] eqn:Ea; cbn [rbind]; [discriminate|].
    destruct (map_result f l) as [e|bs]; cbn [rbind]; [discriminate|].
    intros [= <-]. destruct (IH bs eq_refl) as [Hlen Hnth].
    split; [cbn; now rewrite Hlen|].
    intros [|n] x; cbn [nth_error].
    + intros [= <-]. now exists b.
    + apply Hnth.
Qed.

(** An element that raises makes the whole comprehension raise. *)
Lemma map_result_raises {A B} (f : A -> result B) (l : list A) (a : A) (e : exn) :
  In a l -> f a = Raise e -> exists e', map_result f l = Raise e'.
Proof.
  induction l as [|x l IH]; intros Hin Ha; [destruct Hin|].
  cbn [map_result]. destruct (f x) as [ex|b] eqn:Ex; cbn [rbind]; [eauto|].
  destruct Hin as [->|Hin]; [congruence|].
  destruct (IH Hin Ha) as [e' ->]. cbn [rbind]. eauto.
Qed.

Lemma length_range (count : Z) : length (range count) = Z.to_nat count.
Proof. unfold range. now rewrite length_map, length_seq. Qed.

Lemma nth_error_range (count j : Z) :
  0 <= j < count -> nth_error (range count) (Z.to_nat j) = Some j.
Proof.
  intros H. unfold range.
  rewrite nth_error_map, nth_error_seq.
  replace (Z.to_nat j <? Z.to_nat count)%nat with true
    by (symmetry; apply Nat.ltb_lt; lia).
  cbn. f_equal. lia.
Qed.

Lemma In_range (count j : Z) : In j (range count) <-> 0 <= j < count.
Proof.
  unfold range. rewrite in_map_iff. split.
  - intros (n & <- & Hn). apply in_seq in Hn. lia.
  - intros H. exists (Z.to_nat j). split; [lia|]. apply in_seq. lia.
Qed.

(** Reduce the projections of a key that is written out. *)
Ltac key_fields :=
  cbn [public k K C depth index parent_fpr testnet length] in *.

Section Derivation.
Context {P : Collaborators} {L : CollaboratorLaws P}.

Lemma fromEntropy_private (entropy : bytes) (key : BIP32Key) :
  fromEntropy entropy = Ok key ->
  private_key_ok key /\ depth key = 0 /\ testnet key = false.
Proof.
  unfold fromEntropy.
  destruct (MIN_ENTROPY_LEN / 8 <=? Z.of_nat (length entropy)); cbn [negb];
    [|discriminate].
  intros H. apply init_private_inv in H as (_ & Hr & ->).
  repeat split; key_fields; try lia.
  - eauto.
  - rewrite length_skipn, hmac_sha512_length. reflexivity.
Qed.

Lemma ChildKey_private (key : BIP32Key) (i : Z) :
  public key = false -> ChildKey key i = CKDpriv key i.
Proof. intros H. unfold ChildKey. now rewrite H. Qed.

(** A child that [CKDpriv] returns is again a private key, one level down,
    numbered [i]. *)
Lemma CKDpriv_private (key child : BIP32Key) (i : Z) :
  private_key_ok key ->
  CKDpriv key i = Ok (Some child) ->
  private_key_ok child /\ depth child = depth key + 1 /\
  testnet child = testnet key /\ index child = i /\ 0 <= i < 2 ^ 32.
Proof.
  intros (Hpub & (secexp & Hk & Hr & HK) & HC & Hf & Hi).
  unfold CKDpriv.
  destruct (pack_u32 i) as [e|i_str] eqn:Ep; cbn [rbind]; [discriminate|].
  apply pack_u32_inv in Ep as [Hrange ->].
  rewrite Hk. cbn [attr rbind]. unfold hmac.
  match goal with
  | |- context [hmac_sha512 (C key) ?d] => set (I := hmac_sha512 (C key) d)
  end.
  destruct (int_from_bytes_big (firstn 32 I) >? CURVE_ORDER); [discriminate|].
  destruct ((int_from_bytes_big (firstn 32 I) + secexp) mod CURVE_ORDER =? 0);
    [discriminate|].
  destruct (init_private _ _ _ _ _ _) as [e|c] eqn:Ei; cbn [rbind];
    [discriminate|].
  intros [= <-].
  apply init_private_inv in Ei as (_ & Hr' & ->).
  repeat split; key_fields; try lia.
  - eauto.
  - subst I. rewrite length_skipn, hmac_sha512_length. reflexivity.
  - unfold Fingerprint, Identifier.
    rewrite length_firstn, ripemd160_length. reflexivity.
Qed.

Lemma derive_loop_app (current_key : option BIP32Key) (p q : list Z) :
  derive_loop current_key (p ++ q)
  = (mid <- derive_loop current_key p ;; derive_loop mid q)%result.
Proof.
  revert current_key. induction p as [|i p IH]; intros ck; cbn [app derive_loop].
  - reflexivity.
  - destruct (attr ck) as [e|key]; cbn [rbind]; [reflexivity|].
    destruct (ChildKey key i) as [e|next]; cbn [rbind]; [reflexivity|].
    apply IH.
Qed.

Lemma derive_loop_None (path : list Z) (key : BIP32Key) :
  derive_loop None path <> Ok (Some key).
Proof. destruct path; cbn; discriminate. Qed.

(** Walking a path from a private key ends on a private key, as many levels
    down as the path has segments. *)
Lemma derive_loop_private (path : list Z) (key key' : BIP32Key) :
  private_key_ok key ->
  derive_loop (Some key) path = Ok (Some key') ->
  private_key_ok key' /\
  depth key' = depth key + Z.of_nat (length path) /\
  testnet key' = testnet key.
Proof.
  revert key. induction path as [|i path IH]; intros key Hok; cbn [derive_loop].
  - intros [= <-]. split; [assumption|]. split; [cbn [length]; lia|reflexivity].
  - cbn [attr rbind]. rewrite ChildKey_private by apply Hok.
    destruct (CKDpriv key i) as [e|[child|]] eqn:Ec; cbn [rbind];
      [discriminate| |intros H; now apply derive_loop_None in H].
    intros H.
    destruct (CKDpriv_private key child i Hok Ec) as (Hc & Hd & Ht & _).
    destruct (IH child Hc H) as (Hk' & Hd' & Ht').
    split; [assumption|]. split; [|congruence].
    rewrite Hd', Hd. cbn [length]. lia.
Qed.

(** The text form of a private key decodes to the same key. *)
Lemma ExtendedKey_roundtrip (key : BIP32Key) :
  private_key_ok key -> 0 <= depth key < 256 ->
  exists secexp raw,
    k key = Some secexp /\
    raw = (if testnet key then hd [] EX_TEST_PRIVATE else hd [] EX_MAIN_PRIVATE)
            ++ [byte_of_Z (depth key)] ++ parent_fpr key
            ++ be_bytes 4 (index key) ++ C key ++ x00 :: be_bytes 32 secexp /\
    ExtendedKey key = Ok (b58check_encode raw) /\
    fromExtendedKey (b58check_encode raw) = Ok key.
Proof.
  intros Hok Hd.
  pose proof Hok as (Hpub & (secexp & Hk & Hr & HK) & HC & Hf & Hi).
  destruct (private_key_ok_PrivateKey key Hok) as (s' & Hk' & _ & Hpriv).
  assert (s' = secexp) by congruence. subst s'.
  exists secexp. eexists. split; [exact Hk|]. split; [reflexivity|].
  set (v := if testnet key then hd [] EX_TEST_PRIVATE else hd [] EX_MAIN_PRIVATE).
  assert (Hv : length v = 4%nat) by (subst v; now destruct (testnet key)).
  split.
  - unfold ExtendedKey, ExtendedKey_with.
    rewrite Hpub, Hpriv, (pack_u32_ok _ Hi). cbn [andb orb negb rbind].
    replace (0 <=? depth key) with true by (symmetry; apply Z.leb_le; lia).
    replace (depth key <? 256) with true by (symmetry; apply Z.ltb_lt; lia).
    cbn [andb negb]. subst v. now destruct (testnet key).
  - unfold fromExtendedKey.
    rewrite b58check_roundtrip
      by (subst v; destruct (testnet key); intros Hz; discriminate Hz).
    cbn [rbind].
    destruct (raw_fields v [byte_of_Z (depth key)] (parent_fpr key)
                (be_bytes 4 (index key)) (C key) (x00 :: be_bytes 32 secexp))
      as (Hlen & Sv & Sd & Sf & Sc & Sch & Sdat);
      try assumption; try reflexivity;
      try (cbn [length]; rewrite length_be_bytes; reflexivity);
      try apply length_be_bytes.
    rewrite Hlen, Sv, Sd, Sf, Sc, Sch, Sdat. cbn [Nat.eqb negb].
    match goal with
    | |- rbind ?flags _ = _ =>
        assert (Hflags : flags = Ok (testnet key, false))
          by (subst v; now destruct (testnet key))
    end.
    rewrite Hflags. cbn [rbind negb skipn].
    rewrite init_private_be_bytes by exact Hr.
    rewrite int_from_be_bytes.
    change (256 ^ Z.of_nat 4) with (2 ^ 32). rewrite Z.mod_small by exact Hi.
    unfold int_from_bytes_big. cbn [fold_left].
    rewrite Z_of_byte_of_Z, Z.mod_small by lia.
    destruct key; key_fields. subst. reflexivity.
Qed.

Lemma Account_from_key_address_hex (priv : bytes) :
  length priv = 32%nat ->
  Account_from_key_address (KeyStr (hex priv)) = Ok (key_address priv) /\
  Account_from_key_address (KeyBytes priv) = Ok (key_address priv).
Proof.
  intros H. unfold Account_from_key_address.
  rewrite hexstr_to_bytes_hex. cbn [rbind]. rewrite H. now cbn.
Qed.

(** The address the comprehension computes at index [i] is that of the
    private key of the private child [i]. *)
Lemma derive_address_private (key child : BIP32Key) (i : Z) :
  private_key_ok key ->
  CKDpriv key i = Ok (Some child) ->
  exists secexp,
    k child = Some secexp /\
    PrivateKey child = Ok (be_bytes 32 secexp) /\
    derive_address key i = Ok (key_address (be_bytes 32 secexp)).
Proof.
  intros Hok Hc.
  destruct (CKDpriv_private key child i Hok Hc) as (Hcok & _).
  destruct (private_key_ok_PrivateKey child Hcok) as (secexp & Hk & _ & Hp).
  exists secexp. repeat split; try assumption.
  unfold derive_address.
  rewrite ChildKey_private by apply Hok. rewrite Hc. cbn [rbind attr].
  rewrite Hp. cbn [rbind].
  apply Account_from_key_address_hex, length_be_bytes.
Qed.

End Derivation.

(** ** What the public methods return *)

Section Views.
Context {P : Collaborators}.
Local Open Scope result_scope.

Lemma returned_mret {A} (r : result A) (self : TreasurySystem) :
  returned (mret r) self = r.
Proof. reflexivity. Qed.

Lemma returned_mbind {A B} (m : method A) (f : A -> method B)
      (self : TreasurySystem) :
  read_only m ->
  returned (mbind m f) self = (a <- returned m self ;; returned (f a) self).
Proof.
  intros Hm. specialize (Hm self). unfold object_after in Hm.
  unfold returned, mbind.
  destruct (m self) as [[e|a] self']; cbn [fst snd rbind] in *; subst;
    reflexivity.
Qed.

Lemma returned_derive_key (path : list Z) (self : TreasurySystem) :
  returned (_derive_key path) self = derive_loop (Some (root_key self)) path.
Proof. reflexivity. Qed.

(** [generate_account] as a function of the root key. *)
Lemma returned_generate_account (e d : pystr) (i : Z) (self : TreasurySystem) :
  returned (generate_account e d i) self =
  (idx <- _hierarchical_hash e d ;;
   key <- derive_loop (Some (root_key self))
                      [0x8000002C; 0x8000003C; fst idx; snd idx; i] ;;
   key <- attr key ;;
   priv <- PrivateKey key ;;
   addr <- Account_from_key_address (KeyStr (hex priv)) ;;
   Ok {| path := lit "m/44'/60'/" ++ decimal (fst idx) ++ lit "'/"
                   ++ decimal (snd idx) ++ lit "'/" ++ decimal i;
         private_key := hex priv;
         address := addr |}).
Proof.
  unfold generate_account.
  rewrite returned_mbind by apply read_only_mret. rewrite returned_mret.
  destruct (_hierarchical_hash e d) as [ex|[e_idx d_idx]]; cbn [rbind fst snd];
    [reflexivity|].
  rewrite returned_mbind by apply read_only_derive_key.
  rewrite returned_derive_key.
  destruct (derive_loop _ _) as [ex|key]; cbn [rbind]; [reflexivity|].
  rewrite returned_mbind by apply read_only_mret. rewrite returned_mret.
  destruct (attr key) as [ex|key']; cbn [rbind]; [reflexivity|].
  destruct (PrivateKey key') as [ex|priv]; cbn [rbind]; [reflexivity|].
  rewrite returned_mbind by apply read_only_mret. rewrite returned_mret.
  destruct (Account_from_key_address _) as [ex|addr]; cbn [rbind];
    reflexivity.
Qed.

(** [get_audit_xpub] as a function of the root key. *)
Lemma returned_get_audit_xpub (e d : pystr) (self : TreasurySystem) :
  returned (get_audit_xpub e d) self =
  (idx <- _hierarchical_hash e d ;;
   key <- derive_loop (Some (root_key self)) (dept_path (fst idx) (snd idx)) ;;
   key <- attr key ;;
   ExtendedKey key).
Proof.
  unfold get_audit_xpub.
  rewrite returned_mbind by apply read_only_mret. rewrite returned_mret.
  destruct (_hierarchical_hash e d) as [ex|[e_idx d_idx]]; cbn [rbind fst snd];
    [reflexivity|].
  rewrite returned_mbind by apply read_only_derive_key.
  rewrite returned_derive_key. unfold dept_path.
  destruct (derive_loop _ _) as [ex|key]; cbn [rbind]; reflexivity.
Qed.

(** C5.  [get_audit_xpub] and [get_dept_xprv] return the same string (or
    raise the same exception) on the same arguments: each derives the
    4-segment path [m/44'/60'/entity'/dept'] from the root key and serialises
    the key it reaches with the same call [ExtendedKey()]. *)
Theorem audit_xpub_is_dept_xprv
  (entity department : pystr) (self : TreasurySystem) :
  returned (get_audit_xpub entity department) self
  = returned (get_dept_xprv entity department) self /\
  returned (get_dept_xprv entity department) self
  = (idx <- _hierarchical_hash entity department ;;
     key <- derive_loop (Some (root_key self))
                        [0x8000002C; 0x8000003C; fst idx; snd idx] ;;
     key <- attr key ;;
     ExtendedKey key).
Proof.
  split; [reflexivity|].
  change (get_dept_xprv entity department)
    with (get_audit_xpub entity department).
  apply returned_get_audit_xpub.
Qed.

End Views.

(** ** The engine on a constructed object *)

Section Engine.
Context {P : Collaborators} {L : CollaboratorLaws P}.

Lemma init_root_key (mnemonic : pystr) (self : TreasurySystem) :
  init mnemonic = Ok self ->
  private_key_ok (root_key self) /\ depth (root_key self) = 0 /\
  testnet (root_key self) = false.
Proof.
  unfold init. destruct (mnemonic_check mnemonic); cbn [negb]; [|discriminate].
  destruct (fromEntropy _) as [e|root] eqn:E; cbn [rbind]; [discriminate|].
  intros [= <-]. cbn [root_key]. now apply fromEntropy_private in E.
Qed.

(** The department key: the key at [m/44'/60'/entity'/dept']. *)
Lemma dept_key_private (mnemonic : pystr) (self : TreasurySystem)
      (e_idx d_idx : Z) (kd : BIP32Key) :
  init mnemonic = Ok self ->
  derive_loop (Some (root_key self)) (dept_path e_idx d_idx) = Ok (Some kd) ->
  private_key_ok kd /\ depth kd = 4 /\ testnet kd = false.
Proof.
  intros Hinit Hd.
  destruct (init_root_key _ _ Hinit) as (Hroot & Hdepth & Htest).
  destruct (derive_loop_private _ _ _ Hroot Hd) as (Hk & Hdk & Htk).
  split; [assumption|]. split; [|congruence].
  rewrite Hdk, Hdepth. reflexivity.
Qed.

(** The last step of a path from the department key. *)
Lemma derive_loop_last (self : TreasurySystem) (e_idx d_idx i : Z)
      (key : option BIP32Key) :
  derive_loop (Some (root_key self))
              [0x8000002C; 0x8000003C; e_idx; d_idx; i] = Ok key ->
  exists mid,
    derive_loop (Some (root_key self)) (dept_path e_idx d_idx) = Ok mid /\
    derive_loop mid [i] = Ok key.
Proof.
  change [0x8000002C; 0x8000003C; e_idx; d_idx; i]
    with (dept_path e_idx d_idx ++ [i]).
  rewrite derive_loop_app. intros H.
  apply rbind_ok in H as (mid & Hmid & Hlast). eauto.
Qed.

(** What a returned account is made of. *)
Lemma generate_account_inv (mnemonic e d : pystr) (i : Z)
      (self : TreasurySystem) (acct : Account) :
  init mnemonic = Ok self ->
  returned (generate_account e d i) self = Ok acct ->
  exists e_idx d_idx kd child secexp,
    _hierarchical_hash e d = Ok (e_idx, d_idx) /\
    derive_loop (Some (root_key self)) (dept_path e_idx d_idx) = Ok (Some kd) /\
    CKDpriv kd i = Ok (Some child) /\
    k child = Some secexp /\
    acct = {| path := lit "m/44'/60'/" ++ decimal e_idx ++ lit "'/"
                        ++ decimal d_idx ++ lit "'/" ++ decimal i;
              private_key := hex (be_bytes 32 secexp);
              address := key_address (be_bytes 32 secexp) |}.
Proof.
  intros Hinit. rewrite returned_generate_account. intros H.
  apply rbind_ok in H as ([e_idx d_idx] & Hh & H). cbn [fst snd] in H.
  apply rbind_ok in H as (key & Hloop & H).
  apply rbind_ok in H as (child & Hattr & H).
  apply rbind_ok in H as (priv & Hpriv & H).
  apply rbind_ok in H as (addr & Haddr & H).
  destruct key as [key|]; [|discriminate]. injection Hattr as ->.
  apply derive_loop_last in Hloop as (mid & Hmid & Hlast).
  destruct mid as [kd|]; [|discriminate].
  destruct (dept_key_private _ _ _ _ _ Hinit Hmid) as (Hkd & _).
  cbn [derive_loop attr rbind] in Hlast.
  rewrite ChildKey_private in Hlast by apply Hkd.
  destruct (CKDpriv kd i) as [ex|next] eqn:Ec; cbn [rbind] in Hlast;
    [discriminate|].
  injection Hlast as ->.
  destruct (derive_address_private kd child i Hkd Ec) as (secexp & Hk & Hp & _).
  assert (priv = be_bytes 32 secexp) by congruence. subst priv.
  destruct (Account_from_key_address_hex (be_bytes 32 secexp)
              (length_be_bytes _ _)) as [Ha _].
  assert (addr = key_address (be_bytes 32 secexp)) by congruence. subst addr.
  exists e_idx, d_idx, kd, child, secexp.
  repeat split; try assumption. congruence.
Qed.

(** Conversely: when the department key and its child [i] derive, the
    account is returned. *)
Lemma generate_account_intro (mnemonic e d : pystr) (i e_idx d_idx : Z)
      (self : TreasurySystem) (kd child : BIP32Key) :
  init mnemonic = Ok self ->
  _hierarchical_hash e d = Ok (e_idx, d_idx) ->
  derive_loop (Some (root_key self)) (dept_path e_idx d_idx) = Ok (Some kd) ->
  CKDpriv kd i = Ok (Some child) ->
  exists secexp,
    k child = Some secexp /\
    returned (generate_account e d i) self
    = Ok {| path := lit "m/44'/60'/" ++ decimal e_idx ++ lit "'/"
                      ++ decimal d_idx ++ lit "'/" ++ decimal i;
            private_key := hex (be_bytes 32 secexp);
            address := key_address (be_bytes 32 secexp) |}.
Proof.
  intros Hinit Hh Hmid Hc.
  destruct (dept_key_private _ _ _ _ _ Hinit Hmid) as (Hkd & _).
  destruct (derive_address_private kd child i Hkd Hc) as (secexp & Hk & Hp & _).
  exists secexp. split; [assumption|].
  rewrite returned_generate_account, Hh. cbn [rbind fst snd].
  change [0x8000002C; 0x8000003C; e_idx; d_idx; i]
    with (dept_path e_idx d_idx ++ [i]).
  rewrite derive_loop_app, Hmid. cbn [rbind derive_loop attr].
  rewrite ChildKey_private by apply Hkd. rewrite Hc. cbn [rbind attr].
  rewrite Hp. cbn [rbind].
  destruct (Account_from_key_address_hex (be_bytes 32 secexp)
              (length_be_bytes _ _)) as [-> _].
  reflexivity.
Qed.

(** The string that [get_audit_xpub] returns decodes to the department key,
    a private key. *)
Lemma get_audit_xpub_decodes (mnemonic e d : pystr) (e_idx d_idx : Z)
      (self : TreasurySystem) (kd : BIP32Key) :
  init mnemonic = Ok self ->
  _hierarchical_hash e d = Ok (e_idx, d_idx) ->
  derive_loop (Some (root_key self)) (dept_path e_idx d_idx) = Ok (Some kd) ->
  exists secexp raw,
    k kd = Some secexp /\
    raw = hd [] EX_MAIN_PRIVATE ++ [byte_of_Z (depth kd)] ++ parent_fpr kd
            ++ be_bytes 4 (index kd) ++ C kd ++ x00 :: be_bytes 32 secexp /\
    returned (get_audit_xpub e d) self = Ok (b58check_encode raw) /\
    fromExtendedKey (b58check_encode raw) = Ok kd /\
    public kd = false.
Proof.
  intros Hinit Hh Hmid.
  destruct (dept_key_private _ _ _ _ _ Hinit Hmid) as (Hkd & Hdepth & Htest).
  destruct (ExtendedKey_roundtrip kd Hkd) as (secexp & raw & Hk & Hraw & He & Hf);
    [lia|].
  rewrite Htest in Hraw.
  exists secexp, raw. repeat split; try assumption; [|apply Hkd].
  rewrite returned_get_audit_xpub, Hh. cbn [rbind fst snd].
  rewrite Hmid. cbn [rbind attr]. exact He.
Qed.

End Engine.

(** ** The stand-in collaborators satisfy the interface laws *)

Lemma bytes_eqb_refl (b : bytes) : bytes_eqb b b = true.
Proof. unfold bytes_eqb. now destruct (list_eq_dec Byte.byte_eq_dec b b). Qed.

Lemma standin_check_roundtrip (raw : bytes) :
  Standin.check_decode (Standin.check_encode raw) = Ok raw.
Proof.
  unfold Standin.check_decode, Standin.check_encode.
  rewrite unhexlify_hex.
  assert (Hc : length (Standin.checksum raw) = 4%nat).
  { unfold Standin.checksum. rewrite length_firstn, sha256_length. reflexivity. }
  rewrite length_app, Hc, Nat.add_sub.
  rewrite firstn_app_exact, skipn_app_exact by reflexivity.
  now rewrite bytes_eqb_refl.
Qed.

Lemma standin_laws : CollaboratorLaws Standin.collaborators.
Proof.
  constructor.
  - intros key msg.
    change (hmac_sha512 key msg) with (Standin.hmac_sha512 key msg).
    unfold Standin.hmac_sha512.
    now rewrite length_app, !sha256_length.
  - intros b. change (ripemd160 b) with (Standin.ripemd160 b).
    unfold Standin.ripemd160.
    now rewrite length_firstn, sha256_length.
  - intros raw _. apply standin_check_roundtrip.
Qed.

(** ** The account that [generate_account] returns *)

(** The text that [decimal] prints reads back as the number printed. *)
Lemma decimal_reads_back (z : Z) :
  exists s,
    decimal z = lit s /\
    option_map Z.of_int (NilZero.int_of_string s) = Some z.
Proof.
  exists (NilZero.string_of_int (Z.to_int z)). split; [reflexivity|].
  rewrite NilZero.isi.
  - cbn [option_map]. now rewrite DecimalZ.of_to.
  - destruct z as [|p|p]; cbn; try discriminate.
    intros [= H]. now apply DecimalPos.Unsigned.to_uint_nonnil in H.
  - destruct z as [|p|p]; cbn; try discriminate.
    intros [= H]. now apply DecimalPos.Unsigned.to_uint_nonnil in H.
Qed.

Lemma hierarchical_hash_range (e d : pystr) (e_idx d_idx : Z) :
  _hierarchical_hash e d = Ok (e_idx, d_idx) ->
  2 ^ 31 <= e_idx < 2 ^ 32 /\ 2 ^ 31 <= d_idx < 2 ^ 32.
Proof.
  unfold _hierarchical_hash. intros H.
  apply rbind_ok in H as (em & _ & H).
  apply rbind_ok in H as (dm & _ & H).
  cbv zeta in H.
  destruct (index_of_digest em) as [Ee He].
  destruct (index_of_digest dm) as [Ed Hd].
  rewrite Ee, Ed in H. clear Ee Ed.
  set (a := Z.lor (be_u32 (firstn 4 (sha256 em))) 0x80000000) in *.
  set (b := Z.lor (be_u32 (firstn 4 (sha256 dm))) 0x80000000) in *.
  assert (a = e_idx /\ b = d_idx) as [<- <-] by (split; congruence). auto.
Qed.

Section AccountShape.
Context {P : Collaborators}.

(** A child that [ChildKey] returns, by private or by public derivation, is
    one level below its parent and numbered [i]. *)
Lemma ChildKey_depth_index (key child : BIP32Key) (i : Z) :
  ChildKey key i = Ok (Some child) ->
  depth child = depth key + 1 /\ index child = i.
Proof.
  unfold ChildKey. destruct (negb (public key)).
  - unfold CKDpriv, hmac. intros H.
    apply rbind_ok in H as (i_str & _ & H).
    apply rbind_ok in H as (secexp & _ & H).
    match type of H with
    | context [hmac_sha512 (C key) ?d] => set (I := hmac_sha512 (C key) d) in H
    end.
    destruct (int_from_bytes_big (firstn 32 I) >? CURVE_ORDER); [discriminate|].
    destruct ((int_from_bytes_big (firstn 32 I) + secexp) mod CURVE_ORDER =? 0);
      [discriminate|].
    apply rbind_ok in H as (c & Hc & H).
    apply init_private_inv in Hc as (_ & _ & Hc).
    assert (c = child) by congruence. subst child c. key_fields. auto.
  - unfold CKDpub, hmac.
    destruct (negb (Z.land i BIP32_HARDEN =? 0)); [discriminate|].
    intros H. apply rbind_ok in H as (i_str & _ & H).
    match type of H with
    | context [hmac_sha512 (C key) ?d] => set (I := hmac_sha512 (C key) d) in H
    end.
    destruct (int_from_bytes_big (firstn 32 I) >=? CURVE_ORDER); [discriminate|].
    destruct (add_scalar_base _ _) as [K_i|]; [|discriminate].
    assert (init_public K_i (skipn 32 I) (depth key + 1) i (Fingerprint key)
                        (testnet key) = child) by congruence.
    subst child. unfold init_public. key_fields. auto.
Qed.

(** One turn of the loop of [_derive_key]. *)
Lemma derive_loop_cons (key leaf : BIP32Key) (i : Z) (rest : list Z) :
  derive_loop (Some key) (i :: rest) = Ok (Some leaf) ->
  exists child,
    ChildKey key i = Ok (Some child) /\
    derive_loop (Some child) rest = Ok (Some leaf).
Proof.
  cbn [derive_loop attr rbind].
  destruct (ChildKey key i) as [e|[child|]]; cbn [rbind];
    [discriminate| |intros H; now apply derive_loop_None in H].
  intros H. now exists child.
Qed.

(** C9.  An account that [generate_account] returns carries the path string
    ["m/44'/60'/" + e + "'/" + d + "'/" + account_idx], where [e] and [d] are
    the two indices of [_hierarchical_hash] for (entity, department), printed
    in decimal as the 32-bit values they are (bit 31 set, so at least 2^31),
    and carries as lowercase hexadecimal the private key of the derived key:
    the key reached from the root key by the five child derivations
    [44'], [60'], [e], [d], [account_idx] in this order, five levels below
    the root key and numbered [account_idx]. *)
Theorem generate_account_path_and_key
  (entity department : pystr) (account_idx : Z)
  (self : TreasurySystem) (acct : Account) :
  returned (generate_account entity department account_idx) self = Ok acct ->
  exists e_idx d_idx key priv,
    _hierarchical_hash entity department = Ok (e_idx, d_idx) /\
    2 ^ 31 <= e_idx < 2 ^ 32 /\ 2 ^ 31 <= d_idx < 2 ^ 32 /\
    path acct = lit "m/44'/60'/" ++ decimal e_idx ++ lit "'/"
                  ++ decimal d_idx ++ lit "'/" ++ decimal account_idx /\
    derive_loop (Some (root_key self))
                [0x8000002C; 0x8000003C; e_idx; d_idx; account_idx]
      = Ok (Some key) /\
    (exists purpose coin ent dept,
        ChildKey (root_key self) 0x8000002C = Ok (Some purpose) /\
        ChildKey purpose 0x8000003C = Ok (Some coin) /\
        ChildKey coin e_idx = Ok (Some ent) /\
        ChildKey ent d_idx = Ok (Some dept) /\
        ChildKey dept account_idx = Ok (Some key)) /\
    depth key = depth (root_key self) + 5 /\
    index key = account_idx /\
    PrivateKey key = Ok priv /\
    private_key acct = hex priv /\
    Forall (fun c => lower_hex_char c = true) (private_key acct).
Proof.
  rewrite returned_generate_account. intros H.
  apply rbind_ok in H as ([e_idx d_idx] & Hh & H). cbn [fst snd] in H.
  apply rbind_ok in H as (okey & Hloop & H).
  apply rbind_ok in H as (key & Hattr & H).
  apply rbind_ok in H as (priv & Hpriv & H).
  apply rbind_ok in H as (addr & Haddr & H).
  destruct okey as [key'|]; [|discriminate].
  assert (key' = key) by (cbn in Hattr; congruence). subst key'.
  assert (Hacct : acct = {| path := lit "m/44'/60'/" ++ decimal e_idx
                                      ++ lit "'/" ++ decimal d_idx ++ lit "'/"
                                      ++ decimal account_idx;
                            private_key := hex priv;
                            address := addr |}) by congruence.
  destruct (hierarchical_hash_range _ _ _ _ Hh) as [He Hd].
  pose proof Hloop as Hwalk.
  apply derive_loop_cons in Hwalk as (purpose & H1 & Hwalk).
  apply derive_loop_cons in Hwalk as (coin & H2 & Hwalk).
  apply derive_loop_cons in Hwalk as (ent & H3 & Hwalk).
  apply derive_loop_cons in Hwalk as (dept & H4 & Hwalk).
  apply derive_loop_cons in Hwalk as (leaf & H5 & Hwalk).
  cbn [derive_loop] in Hwalk.
  assert (leaf = key) by congruence. subst leaf.
  destruct (ChildKey_depth_index _ _ _ H1) as [D1 _].
  destruct (ChildKey_depth_index _ _ _ H2) as [D2 _].
  destruct (ChildKey_depth_index _ _ _ H3) as [D3 _].
  destruct (ChildKey_depth_index _ _ _ H4) as [D4 _].
  destruct (ChildKey_depth_index _ _ _ H5) as [D5 I5].
  exists e_idx, d_idx, key, priv. subst acct. cbn [path private_key].
  split; [exact Hh|]. split; [exact He|]. split; [exact Hd|].
  split; [reflexivity|]. split; [exact Hloop|].
  split; [exists purpose, coin, ent, dept; auto|].
  split; [lia|]. split; [exact I5|]. split; [exact Hpriv|].
  split; [reflexivity|]. apply hex_lower.
Qed.

End AccountShape.

(** ** Audit: the addresses derived from the exported department key *)

Section Audit.
Context {P : Collaborators} {L : CollaboratorLaws P}.

(** The addresses computed from the string that [get_audit_xpub] exports
    are, index by index, those of the accounts of the department. *)
Lemma audit_addresses (mnemonic e d : pystr) (self : TreasurySystem)
      (i count : Z) (acct : Account) :
  init mnemonic = Ok self ->
  0 <= i < count ->
  returned (generate_account e d i) self = Ok acct ->
  exists xpub,
    returned (get_audit_xpub e d) self = Ok xpub /\
    (forall addrs,
        derive_addresses_from_xpub xpub count = Ok addrs ->
        length addrs = Z.to_nat count /\
        nth_error addrs (Z.to_nat i) = Some (address acct)) /\
    ((forall j, 0 <= j < count ->
                exists a, returned (generate_account e d j) self = Ok a) ->
     exists addrs, derive_addresses_from_xpub xpub count = Ok addrs).
Proof.
  intros Hinit Hi Hacct.
  destruct (generate_account_inv _ _ _ _ _ _ Hinit Hacct)
    as (e_idx & d_idx & kd & child & secexp & Hh & Hmid & Hc & Hk & ->).
  destruct (get_audit_xpub_decodes _ _ _ _ _ _ _ Hinit Hh Hmid)
    as (sd & raw & _ & _ & Hx & Hdec & _).
  destruct (dept_key_private _ _ _ _ _ Hinit Hmid) as (Hkd & _).
  exists (b58check_encode raw). split; [exact Hx|].
  unfold derive_addresses_from_xpub. rewrite Hdec. cbn [rbind address].
  split.
  - intros addrs Hmap.
    destruct (map_result_nth _ _ _ Hmap) as [Hlen Hnth].
    split; [now rewrite Hlen, length_range|].
    destruct (Hnth _ _ (nth_error_range count i Hi)) as (b & Hb & Hbi).
    destruct (derive_address_private kd child i Hkd Hc) as (s' & Hk' & _ & Ha).
    assert (s' = secexp) by congruence. subst s'.
    rewrite Hb. congruence.
  - intros Hall. apply map_result_ok. intros j Hj. apply In_range in Hj.
    destruct (Hall j Hj) as [a Ha].
    destruct (generate_account_inv _ _ _ _ _ _ Hinit Ha)
      as (e' & d' & kd' & cj & sj & Hh' & Hmid' & Hcj & _).
    assert (e' = e_idx /\ d' = d_idx) as [-> ->] by (split; congruence).
    assert (kd' = kd) by congruence. subst kd'.
    destruct (derive_address_private kd cj j Hkd Hcj) as (s & _ & _ & Hs).
    eauto.
Qed.

(** C2.  For entity "GroupA" and department "Finance", an account index
    [i] in {0, 1} and a count [N >= i + 1]: the address that
    [generate_account] returns is among the first [N] addresses that
    [derive_addresses_from_xpub] returns for the key exported by
    [get_audit_xpub] for the same entity and department (at position [i]);
    and the list is returned whenever the accounts below [N] can all be
    generated. *)
Theorem audit_completeness
  (mnemonic : pystr) (self : TreasurySystem) (i N : Z) (acct : Account) :
  init mnemonic = Ok self ->
  i = 0 \/ i = 1 ->
  i + 1 <= N ->
  returned (generate_account (lit "GroupA") (lit "Finance") i) self = Ok acct ->
  exists xpub,
    returned (get_audit_xpub (lit "GroupA") (lit "Finance")) self = Ok xpub /\
    (forall addrs,
        derive_addresses_from_xpub xpub N = Ok addrs ->
        nth_error addrs (Z.to_nat i) = Some (address acct) /\
        In (address acct) (firstn (Z.to_nat N) addrs)) /\
    ((forall j, 0 <= j < N ->
                exists a,
                  returned (generate_account (lit "GroupA") (lit "Finance") j)
                           self = Ok a) ->
     exists addrs, derive_addresses_from_xpub xpub N = Ok addrs).
Proof.
  intros Hinit Hi HN Hacct.
  destruct (audit_addresses mnemonic (lit "GroupA") (lit "Finance") self i N
              acct Hinit ltac:(lia) Hacct) as (xpub & Hx & Hpart & Htotal).
  exists xpub. split; [exact Hx|]. split; [|exact Htotal].
  intros addrs Hd. destruct (Hpart addrs Hd) as [Hlen Hnth].
  split; [exact Hnth|].
  rewrite <- Hlen, firstn_all. eapply nth_error_In, Hnth.
Qed.

End Audit.

(** ** [derive_addresses_from_xpub] and the kind of key it is given *)

Lemma length_slice {A} (a b : nat) (l : list A) :
  (b <= length l)%nat -> length (slice a b l) = (b - a)%nat.
Proof.
  intros H. unfold slice. rewrite length_firstn, length_skipn. lia.
Qed.

Section KeyKinds.
Context {P : Collaborators} {L : CollaboratorLaws P}.

(** A decoded key that is not public is a private key as the library
    builds them. *)
Lemma fromExtendedKey_private (xkey : pystr) (key : BIP32Key) :
  fromExtendedKey xkey = Ok key -> public key = false -> private_key_ok key.
Proof.
  unfold fromExtendedKey. intros H Hpub.
  apply rbind_ok in H as (raw & _ & H).
  destruct (length raw =? 78)%nat eqn:Hlen; cbn [negb] in H; [|discriminate].
  apply Nat.eqb_eq in Hlen.
  apply rbind_ok in H as ([is_testnet is_pubkey] & _ & H).
  destruct is_pubkey; cbn [negb] in H.
  - apply rbind_ok in H as (y & _ & H).
    set (pk := init_public _ _ _ _ _ _) in H.
    assert (key = pk) by congruence. subst key.
    discriminate Hpub.
  - apply init_private_inv in H as (_ & Hr & ->).
    split; [reflexivity|].
    split; [eexists; split; [reflexivity|split; [exact Hr|reflexivity]]|].
    key_fields.
    rewrite !length_slice by lia.
    repeat split; try reflexivity.
    + apply int_from_bytes_big_range.
    + pose proof (int_from_bytes_big_range (slice 9 13 raw)) as Hb.
      rewrite length_slice in Hb by lia. exact (proj2 Hb).
Qed.

(** C3, as the code has it.  [derive_addresses_from_xpub] makes no
    [ExpectedPublicKey] check.  When the decoded extended key holds private
    material the call does not fail on that account: it derives each child
    [j] in [0, count) by private child derivation and returns the addresses
    of the children's private keys, one per index and in index order,
    provided each child derives. *)
Theorem derive_addresses_from_private_key
  (xpub : pystr) (key : BIP32Key) (count : Z) :
  fromExtendedKey xpub = Ok key ->
  public key = false ->
  (forall j, 0 <= j < count -> exists child, CKDpriv key j = Ok (Some child)) ->
  exists addrs,
    derive_addresses_from_xpub xpub count = Ok addrs /\
    length addrs = Z.to_nat count /\
    forall j child,
      0 <= j < count ->
      CKDpriv key j = Ok (Some child) ->
      ChildKey key j = Ok (Some child) /\
      exists secexp,
        k child = Some secexp /\
        nth_error addrs (Z.to_nat j) = Some (key_address (be_bytes 32 secexp)).
Proof.
  intros Hdec Hpub Hall.
  pose proof (fromExtendedKey_private _ _ Hdec Hpub) as Hok.
  unfold derive_addresses_from_xpub. rewrite Hdec. cbn [rbind].
  destruct (map_result_ok (derive_address key) (range count)) as [addrs Hmap].
  { intros j Hj. apply In_range in Hj. destruct (Hall j Hj) as [child Hc].
    destruct (derive_address_private key child j Hok Hc) as (s & _ & _ & Hs).
    eauto. }
  exists addrs. split; [exact Hmap|].
  destruct (map_result_nth _ _ _ Hmap) as [Hlen Hnth].
  split; [now rewrite Hlen, length_range|].
  intros j child Hj Hc.
  split; [now rewrite ChildKey_private|].
  destruct (derive_address_private key child j Hok Hc) as (s & Hk & _ & Hs).
  destruct (Hnth _ _ (nth_error_range count j Hj)) as (b & Hb & Hbj).
  exists s. split; [exact Hk|]. rewrite Hb. congruence.
Qed.

(** Public child derivation at index 0 returns [None] or a public key. *)
Lemma CKDpub_zero (key : BIP32Key) :
  exists r,
    CKDpub key 0 = Ok r /\ forall child, r = Some child -> public child = true.
Proof.
  unfold CKDpub. cbn [Z.land Z.eqb negb].
  rewrite (pack_u32_ok 0) by lia. cbn [rbind].
  destruct (hmac key _) as [Il Ir].
  destruct (int_from_bytes_big Il >=? CURVE_ORDER).
  - exists None. split; [reflexivity|discriminate].
  - destruct (add_scalar_base _ _) as [K_i|].
    + eexists. split; [reflexivity|]. now intros child [= <-].
    + exists None. split; [reflexivity|discriminate].
Qed.

Lemma range_head (count : Z) :
  1 <= count -> exists rest, range count = 0 :: rest.
Proof.
  intros H. unfold range.
  destruct (Z.to_nat count) as [|n] eqn:E; [lia|].
  cbn [seq map]. eauto.
Qed.

(** C8 at the documented input.  When the string decodes to a public key,
    as an extended public key does, and at least one address is asked for,
    [derive_addresses_from_xpub] returns no list: it raises at index 0, where
    the comprehension calls [PrivateKey()] on a public child (or on [None]). *)
Theorem derive_addresses_from_public_key_raises
  (xpub : pystr) (key : BIP32Key) (count : Z) :
  fromExtendedKey xpub = Ok key ->
  public key = true ->
  1 <= count ->
  derive_addresses_from_xpub xpub count
  = Raise (PyException "Publicly derived deterministic keys have no private half")
  \/ derive_addresses_from_xpub xpub count = Raise AttributeError.
Proof.
  intros Hdec Hpub Hc.
  assert (H0 : derive_address key 0
               = Raise (PyException
                          "Publicly derived deterministic keys have no private half")
               \/ derive_address key 0 = Raise AttributeError).
  { unfold derive_address, ChildKey. rewrite Hpub. cbn [negb].
    destruct (CKDpub_zero key) as (r & -> & Hr). cbn [rbind].
    destruct r as [child|]; cbn [attr rbind]; [|now right].
    unfold PrivateKey. rewrite (Hr child eq_refl). now left. }
  unfold derive_addresses_from_xpub. rewrite Hdec. cbn [rbind].
  destruct (range_head count Hc) as [rest ->]. cbn [map_result].
  destruct H0 as [-> | ->]; cbn [rbind]; auto.
Qed.

End KeyKinds.

(** ** What [get_audit_xpub] exports, and the account index *)

Section DeptExport.
Context {P : Collaborators} {L : CollaboratorLaws P}.

(** C1 on the code.  The string that [get_audit_xpub] returns is the
    encoding of the key at the 4-segment path [m/44'/60'/entity'/dept'] with
    the private version bytes and the key data [0x00 || private key]: it is
    not neutered, it decodes to a private key, and the department's private
    key is read back from it. *)
Theorem get_audit_xpub_exports_private_key
  (mnemonic entity department : pystr) (self : TreasurySystem) (xpub : pystr) :
  init mnemonic = Ok self ->
  returned (get_audit_xpub entity department) self = Ok xpub ->
  exists e_idx d_idx kd secexp raw,
    _hierarchical_hash entity department = Ok (e_idx, d_idx) /\
    derive_loop (Some (root_key self)) [0x8000002C; 0x8000003C; e_idx; d_idx]
      = Ok (Some kd) /\
    k kd = Some secexp /\
    raw = hd [] EX_MAIN_PRIVATE ++ [byte_of_Z (depth kd)] ++ parent_fpr kd
            ++ be_bytes 4 (index kd) ++ C kd ++ x00 :: be_bytes 32 secexp /\
    xpub = b58check_encode raw /\
    fromExtendedKey xpub = Ok kd /\
    public kd = false /\
    PrivateKey kd = Ok (be_bytes 32 secexp).
Proof.
  intros Hinit Hx. pose proof Hx as Hx'.
  rewrite returned_get_audit_xpub in Hx'.
  apply rbind_ok in Hx' as ([e_idx d_idx] & Hh & H). cbn [fst snd] in H.
  apply rbind_ok in H as (okey & Hmid & H).
  apply rbind_ok in H as (kd & Hattr & _).
  destruct okey as [kd'|]; [|discriminate].
  assert (kd' = kd) by (cbn in Hattr; congruence). subst kd'.
  destruct (get_audit_xpub_decodes _ _ _ _ _ _ _ Hinit Hh Hmid)
    as (secexp & raw & Hk & Hraw & Hret & Hdec & Hpub).
  assert (xpub = b58check_encode raw) by congruence. subst xpub.
  exists e_idx, d_idx, kd, secexp, raw.
  repeat split; try assumption.
  unfold PrivateKey. now rewrite Hpub, Hk.
Qed.

(** C6, as the code has it.  [generate_account] makes no range check on
    [account_idx].  For [2^31 <= account_idx < 2^32] it derives the child of
    the department key at that hardened index and returns its account
    whenever that child derives; for [account_idx >= 2^32] the call raises
    the [struct.error] of [struct.pack] once the department key is derived. *)
Theorem generate_account_accepts_hardened_index
  (mnemonic entity department : pystr) (self : TreasurySystem)
  (account_idx e_idx d_idx : Z) (kd : BIP32Key) :
  init mnemonic = Ok self ->
  2 ^ 31 <= account_idx ->
  _hierarchical_hash entity department = Ok (e_idx, d_idx) ->
  derive_loop (Some (root_key self)) (dept_path e_idx d_idx) = Ok (Some kd) ->
  (forall child,
      account_idx < 2 ^ 32 ->
      CKDpriv kd account_idx = Ok (Some child) ->
      index child = account_idx /\
      exists secexp,
        k child = Some secexp /\
        returned (generate_account entity department account_idx) self
        = Ok {| path := lit "m/44'/60'/" ++ decimal e_idx ++ lit "'/"
                          ++ decimal d_idx ++ lit "'/" ++ decimal account_idx;
                private_key := hex (be_bytes 32 secexp);
                address := key_address (be_bytes 32 secexp) |}) /\
  (2 ^ 32 <= account_idx ->
   returned (generate_account entity department account_idx) self
   = Raise StructError).
Proof.
  intros Hinit Hi Hh Hmid.
  destruct (dept_key_private _ _ _ _ _ Hinit Hmid) as (Hkd & _).
  split.
  - intros child _ Hc.
    destruct (CKDpriv_private kd child account_idx Hkd Hc) as (_ & _ & _ & Hidx & _).
    split; [exact Hidx|].
    exact (generate_account_intro _ _ _ _ _ _ _ _ _ Hinit Hh Hmid Hc).
  - intros Hbig.
    rewrite returned_generate_account, Hh. cbn [rbind fst snd].
    change [0x8000002C; 0x8000003C; e_idx; d_idx; account_idx]
      with (dept_path e_idx d_idx ++ [account_idx]).
    rewrite derive_loop_app, Hmid. cbn [rbind derive_loop attr].
    rewrite ChildKey_private by apply Hkd.
    unfold CKDpriv. rewrite pack_u32_out_of_range by lia. reflexivity.
Qed.

End DeptExport.

(** ** The engine run on the stand-in collaborators *)

(** Evaluate a computation that returns, and give its value as witness. *)
Ltac run_exists t :=
  let r := eval vm_compute in t in
  lazymatch r with
  | inr ?v => exists v
  end.

Ltac run_exists_some t :=
  let r := eval vm_compute in t in
  lazymatch r with
  | inr (Some ?v) => exists v
  end.

Ltac by_run := vm_compute; reflexivity.

Lemma hierarchical_hash_golden :
  _hierarchical_hash (lit "GroupA") (lit "Finance")
  = Ok (2585098242, 3778387289).
Proof. by_run. Qed.

Lemma standin_engine_constructed :
  init (P := Standin.collaborators) Standin.phrase = Ok Standin.engine.
Proof. by_run. Qed.

(** The hypothesis of [generate_account_path_and_key] at ("GroupA",
    "Finance", 0) on the stand-in engine, with the path it prints and the
    five child derivations that lead to the account key. *)
Lemma generate_account_GroupA_Finance :
  exists acct,
    returned (generate_account (P := Standin.collaborators)
                               (lit "GroupA") (lit "Finance") 0)
             Standin.engine = Ok acct /\
    path acct = lit "m/44'/60'/2585098242'/3778387289'/0" /\
    length (private_key acct) = 64%nat /\
    exists e_idx d_idx key priv,
      _hierarchical_hash (lit "GroupA") (lit "Finance") = Ok (e_idx, d_idx) /\
      2 ^ 31 <= e_idx < 2 ^ 32 /\ 2 ^ 31 <= d_idx < 2 ^ 32 /\
      path acct = lit "m/44'/60'/" ++ decimal e_idx ++ lit "'/"
                    ++ decimal d_idx ++ lit "'/" ++ decimal 0 /\
      derive_loop (P := Standin.collaborators)
                  (Some (root_key Standin.engine))
                  [0x8000002C; 0x8000003C; e_idx; d_idx; 0]
        = Ok (Some key) /\
      (exists purpose coin ent dept,
          ChildKey (P := Standin.collaborators)
                   (root_key Standin.engine) 0x8000002C = Ok (Some purpose) /\
          ChildKey (P := Standin.collaborators) purpose 0x8000003C
            = Ok (Some coin) /\
          ChildKey (P := Standin.collaborators) coin e_idx = Ok (Some ent) /\
          ChildKey (P := Standin.collaborators) ent d_idx = Ok (Some dept) /\
          ChildKey (P := Standin.collaborators) dept 0 = Ok (Some key)) /\
      depth key = depth (root_key Standin.engine) + 5 /\
      index key = 0 /\
      PrivateKey key = Ok priv /\
      private_key acct = hex priv /\
      Forall (fun c => lower_hex_char c = true) (private_key acct).
Proof.
  run_exists (returned (generate_account (P := Standin.collaborators)
                                         (lit "GroupA") (lit "Finance") 0)
                       Standin.engine).
  match goal with
  | |- ?r = Ok ?acct /\ _ => assert (H : r = Ok acct) by by_run
  end.
  split; [exact H|]. split; [by_run|]. split; [by_run|].
  exact (generate_account_path_and_key _ _ _ _ _ H).
Defined.

(** The hypotheses of [audit_completeness] at account index 1 and [N = 2]
    on the stand-in engine. *)
Lemma audit_completeness_standin :
  exists acct xpub addrs,
    returned (generate_account (P := Standin.collaborators)
                               (lit "GroupA") (lit "Finance") 1)
             Standin.engine = Ok acct /\
    returned (get_audit_xpub (P := Standin.collaborators)
                             (lit "GroupA") (lit "Finance"))
             Standin.engine = Ok xpub /\
    derive_addresses_from_xpub (P := Standin.collaborators) xpub 2 = Ok addrs /\
    nth_error addrs (Z.to_nat 1) = Some (address acct) /\
    In (address acct) (firstn (Z.to_nat 2) addrs).
Proof.
  run_exists (returned (generate_account (P := Standin.collaborators)
                                         (lit "GroupA") (lit "Finance") 1)
                       Standin.engine).
  match goal with
  | |- exists _ _, ?r = Ok ?acct /\ _ =>
      assert (Hacct : r = Ok acct) by by_run;
      destruct (audit_completeness (L := standin_laws)
                  Standin.phrase Standin.engine 1 2 acct
                  standin_engine_constructed (or_intror eq_refl)
                  ltac:(lia) Hacct) as (xpub & Hx & Hpart & Htotal)
  end.
  destruct Htotal as [addrs Ha].
  { intros j Hj. assert (j = 0 \/ j = 1) as [-> | ->] by lia.
    - run_exists (returned (generate_account (P := Standin.collaborators)
                                             (lit "GroupA") (lit "Finance") 0)
                           Standin.engine). by_run.
    - run_exists (returned (generate_account (P := Standin.collaborators)
                                             (lit "GroupA") (lit "Finance") 1)
                           Standin.engine). by_run. }
  exists xpub, addrs. destruct (Hpart addrs Ha) as [Hn Hin].
  exact (conj Hacct (conj Hx (conj Ha (conj Hn Hin)))).
Defined.

(** C3 as stated fails: the string that [get_audit_xpub] exports decodes to
    a key with private material, and [derive_addresses_from_xpub] returns
    two addresses for it instead of failing. *)
Lemma derive_addresses_accepts_private_key :
  exists xpub key addrs,
    returned (get_audit_xpub (P := Standin.collaborators)
                             (lit "GroupA") (lit "Finance"))
             Standin.engine = Ok xpub /\
    fromExtendedKey (P := Standin.collaborators) xpub = Ok key /\
    public key = false /\
    is_ok (PrivateKey key) = true /\
    derive_addresses_from_xpub (P := Standin.collaborators) xpub 2 = Ok addrs /\
    length addrs = 2%nat.
Proof.
  run_exists (returned (get_audit_xpub (P := Standin.collaborators)
                                       (lit "GroupA") (lit "Finance"))
                       Standin.engine).
  match goal with
  | |- exists _ _, _ = Ok ?x /\ _ =>
      run_exists (fromExtendedKey (P := Standin.collaborators) x);
      run_exists (derive_addresses_from_xpub (P := Standin.collaborators) x 2)
  end.
  split; [by_run|]. split; [by_run|]. split; [by_run|].
  split; [by_run|]. split; by_run.
Qed.

(** The hypotheses of [derive_addresses_from_private_key] on the stand-in:
    the exported department key and a count of 2. *)
Lemma derive_addresses_from_private_key_standin :
  exists xpub key addrs,
    fromExtendedKey (P := Standin.collaborators) xpub = Ok key /\
    public key = false /\
    derive_addresses_from_xpub (P := Standin.collaborators) xpub 2 = Ok addrs /\
    length addrs = Z.to_nat 2.
Proof.
  run_exists (returned (get_audit_xpub (P := Standin.collaborators)
                                       (lit "GroupA") (lit "Finance"))
                       Standin.engine).
  match goal with
  | |- exists _ _, fromExtendedKey ?x = _ /\ _ =>
      run_exists (fromExtendedKey (P := Standin.collaborators) x);
      match goal with
      | |- exists _, _ = Ok ?key /\ _ =>
          assert (Hdec : fromExtendedKey (P := Standin.collaborators) x = Ok key)
            by by_run;
          assert (Hpub : public key = false) by reflexivity;
          destruct (derive_addresses_from_private_key (L := standin_laws)
                      x key 2 Hdec Hpub) as (addrs & Ha & Hlen & _)
      end
  end.
  { intros j Hj. assert (j = 0 \/ j = 1) as [-> | ->] by lia.
    - match goal with
      | |- exists _, ?c = _ => run_exists_some c
      end. by_run.
    - match goal with
      | |- exists _, ?c = _ => run_exists_some c
      end. by_run. }
  exists addrs. exact (conj Hdec (conj Hpub (conj Ha Hlen))).
Defined.

(** C6 as stated fails: at the hardened index 2^31 an account is returned. *)
Lemma generate_account_hardened_index_returns :
  exists acct,
    returned (generate_account (P := Standin.collaborators)
                               (lit "GroupA") (lit "Finance") (2 ^ 31))
             Standin.engine = Ok acct /\
    path acct = lit "m/44'/60'/2585098242'/3778387289'/2147483648".
Proof.
  run_exists (returned (generate_account (P := Standin.collaborators)
                                         (lit "GroupA") (lit "Finance") (2 ^ 31))
                       Standin.engine).
  split; by_run.
Qed.

(** The hypotheses of [generate_account_accepts_hardened_index] on the
    stand-in, at the index 2^31. *)
Lemma generate_account_accepts_hardened_index_standin :
  exists kd child,
    derive_loop (P := Standin.collaborators) (Some (root_key Standin.engine))
                (dept_path 2585098242 3778387289) = Ok (Some kd) /\
    CKDpriv (P := Standin.collaborators) kd (2 ^ 31) = Ok (Some child) /\
    index child = 2 ^ 31 /\
    exists secexp,
      k child = Some secexp /\
      returned (generate_account (P := Standin.collaborators)
                                 (lit "GroupA") (lit "Finance") (2 ^ 31))
               Standin.engine
      = Ok {| path := lit "m/44'/60'/" ++ decimal 2585098242 ++ lit "'/"
                        ++ decimal 3778387289 ++ lit "'/" ++ decimal (2 ^ 31);
              private_key := hex (be_bytes 32 secexp);
              address := @key_address Standin.collaborators
                                      (be_bytes 32 secexp) |}.
Proof.
  run_exists_some (derive_loop (P := Standin.collaborators)
                               (Some (root_key Standin.engine))
                               (dept_path 2585098242 3778387289)).
  match goal with
  | |- exists _, _ = Ok (Some ?kd) /\ _ =>
      run_exists_some (CKDpriv (P := Standin.collaborators) kd (2 ^ 31));
      assert (Hmid : derive_loop (P := Standin.collaborators)
                                 (Some (root_key Standin.engine))
                                 (dept_path 2585098242 3778387289)
                     = Ok (Some kd)) by by_run;
      match goal with
      | |- _ /\ ?c = Ok (Some ?child) /\ _ =>
          assert (Hc : c = Ok (Some child)) by by_run;
          destruct (generate_account_accepts_hardened_index
                      (L := standin_laws) Standin.phrase
                      (lit "GroupA") (lit "Finance") Standin.engine (2 ^ 31)
                      2585098242 3778387289 kd
                      standin_engine_constructed ltac:(lia)
                      hierarchical_hash_golden Hmid)
            as [Hret _];
          destruct (Hret child ltac:(lia) Hc) as [Hidx Hacct]
      end
  end.
  exact (conj Hmid (conj Hc (conj Hidx Hacct))).
Defined.

(** The hypotheses of [get_audit_xpub_exports_private_key] on the stand-in:
    the string exported for ("GroupA", "Finance") decodes to a private key,
    and the private key of account 0 is derived from it. *)
Lemma get_audit_xpub_exports_private_key_standin :
  exists xpub acct,
    returned (get_audit_xpub (P := Standin.collaborators)
                             (lit "GroupA") (lit "Finance"))
             Standin.engine = Ok xpub /\
    returned (generate_account (P := Standin.collaborators)
                               (lit "GroupA") (lit "Finance") 0)
             Standin.engine = Ok acct /\
    (key <- fromExtendedKey (P := Standin.collaborators) xpub ;;
     child <- ChildKey (P := Standin.collaborators) key 0 ;;
     child <- attr child ;;
     priv <- PrivateKey child ;;
     Ok (hex priv))%result = Ok (private_key acct) /\
    exists e_idx d_idx kd secexp raw,
      _hierarchical_hash (lit "GroupA") (lit "Finance") = Ok (e_idx, d_idx) /\
      derive_loop (P := Standin.collaborators) (Some (root_key Standin.engine))
                  [0x8000002C; 0x8000003C; e_idx; d_idx] = Ok (Some kd) /\
      k kd = Some secexp /\
      raw = hd [] EX_MAIN_PRIVATE ++ [byte_of_Z (depth kd)] ++ parent_fpr kd
              ++ be_bytes 4 (index kd) ++ C kd ++ x00 :: be_bytes 32 secexp /\
      xpub = @b58check_encode Standin.collaborators raw /\
      fromExtendedKey (P := Standin.collaborators) xpub = Ok kd /\
      public kd = false /\
      PrivateKey kd = Ok (be_bytes 32 secexp).
Proof.
  run_exists (returned (get_audit_xpub (P := Standin.collaborators)
                                       (lit "GroupA") (lit "Finance"))
                       Standin.engine).
  run_exists (returned (generate_account (P := Standin.collaborators)
                                         (lit "GroupA") (lit "Finance") 0)
                       Standin.engine).
  match goal with
  | |- ?r = Ok ?xpub /\ _ => assert (Hx : r = Ok xpub) by by_run
  end.
  split; [exact Hx|]. split; [by_run|]. split; [by_run|].
  exact (get_audit_xpub_exports_private_key (L := standin_laws)
           Standin.phrase _ _ Standin.engine _ standin_engine_constructed Hx).
Defined.

(** The hypotheses of [derive_addresses_from_public_key_raises] on the
    stand-in: the public encoding of the department key, the extended public
    key the auditor is meant to hold, and a count of 1. *)
Lemma derive_addresses_from_public_key_raises_standin :
  exists kd xpub key,
    derive_loop (P := Standin.collaborators) (Some (root_key Standin.engine))
                (dept_path 2585098242 3778387289) = Ok (Some kd) /\
    ExtendedKey_with (P := Standin.collaborators) kd false = Ok xpub /\
    fromExtendedKey (P := Standin.collaborators) xpub = Ok key /\
    public key = true /\
    derive_addresses_from_xpub (P := Standin.collaborators) xpub 0 = Ok [] /\
    derive_addresses_from_xpub (P := Standin.collaborators) xpub 1
    = Raise (PyException
               "Publicly derived deterministic keys have no private half") /\
    (derive_addresses_from_xpub (P := Standin.collaborators) xpub 1
     = Raise (PyException
                "Publicly derived deterministic keys have no private half")
     \/ derive_addresses_from_xpub (P := Standin.collaborators) xpub 1
        = Raise AttributeError).
Proof.
  run_exists_some (derive_loop (P := Standin.collaborators)
                               (Some (root_key Standin.engine))
                               (dept_path 2585098242 3778387289)).
  match goal with
  | |- exists _ _, _ = Ok (Some ?kd) /\ _ =>
      run_exists (ExtendedKey_with (P := Standin.collaborators) kd false)
  end.
  match goal with
  | |- exists _, _ /\ _ = Ok ?x /\ _ =>
      run_exists (fromExtendedKey (P := Standin.collaborators) x);
      match goal with
      | |- _ /\ _ /\ _ = Ok ?key /\ _ =>
          assert (Hdec : fromExtendedKey (P := Standin.collaborators) x = Ok key)
            by by_run;
          pose proof (derive_addresses_from_public_key_raises
                        (P := Standin.collaborators) x key 1 Hdec eq_refl
                        ltac:(lia))
            as Hraise
      end
  end.
  split; [by_run|]. split; [by_run|]. split; [exact Hdec|].
  split; [reflexivity|]. split; [by_run|]. split; [by_run|exact Hraise].
Defined.

(* ================================================================= *)
(** * Further properties of the engine *)

(** ** Text: UTF-8 is prefix-free *)

Local Open Scope N_scope.

Lemma land_high_low (hi lo n : N) : lo < 2 ^ n -> N.land (hi * 2 ^ n) lo = 0.
Proof.
  intros H. apply N.bits_inj. intros i. rewrite N.land_spec, N.bits_0.
  destruct (N.lt_ge_cases i n) as [Hi|Hi].
  - now rewrite N.mul_pow2_bits_low.
  - destruct (N.eq_dec lo 0) as [->|Hlo]; [now rewrite N.bits_0, andb_false_r|].
    rewrite (N.bits_above_log2 lo i), andb_false_r; [reflexivity|].
    apply N.log2_lt_pow2; [lia|].
    eapply N.lt_le_trans; [exact H|]. now apply N.pow_le_mono_r.
Qed.

Lemma lor_high_low (hi lo n : N) :
  lo < 2 ^ n -> N.lor (hi * 2 ^ n) lo = hi * 2 ^ n + lo.
Proof.
  intros H. pose proof (land_high_low hi lo n H) as Hl.
  now rewrite <- N.lxor_lor, <- N.add_nocarry_lxor.
Qed.

Lemma ok_inj {A} (a b : A) : @inr exn A a = inr b -> a = b.
Proof. congruence. Qed.

Lemma utf8_char_inv (c : N) (b : bytes) :
  utf8_char c = Ok b ->
  (c < 0x80 /\ map Byte.to_N b = [c]) \/
  (0x80 <= c < 0x800 /\ map Byte.to_N b = [192 + c / 64; 128 + c mod 64]) \/
  (0x800 <= c < 0x10000 /\
   map Byte.to_N b = [224 + c / 64 / 64; 128 + (c / 64) mod 64;
                      128 + c mod 64]) \/
  (0x10000 <= c < 0x110000 /\
   map Byte.to_N b = [240 + c / 64 / 64 / 64; 128 + (c / 64 / 64) mod 64;
                      128 + (c / 64) mod 64; 128 + c mod 64]).
Proof.
  unfold utf8_char.
  assert (Hland : forall x, N.land x 0x3F = x mod 64).
  { intros x. change 0x3F with (N.ones 6). now rewrite N.land_ones. }
  assert (Hcont : forall x, Byte.to_N (byte_of_N (N.lor 0x80 (x mod 64)))
                            = 128 + x mod 64).
  { intros x. rewrite to_N_byte_of_N.
    pose proof (N.mod_upper_bound x 64 ltac:(lia)).
    change 0x80 with (2 * 2 ^ 6).
    rewrite lor_high_low by (change (2 ^ 6) with 64; lia).
    change (2 * 2 ^ 6) with 128. rewrite N.mod_small; lia. }
  destruct (c <? 0x80) eqn:E1.
  { apply N.ltb_lt in E1. intros Hb. apply ok_inj in Hb. subst b. left. split; [exact E1|].
    cbn [map]. rewrite to_N_byte_of_N, N.mod_small by lia. reflexivity. }
  apply N.ltb_ge in E1.
  destruct (c <? 0x800) eqn:E2.
  { apply N.ltb_lt in E2. intros Hb. apply ok_inj in Hb. subst b. right. left. split; [lia|].
    cbn [map]. rewrite Hland, Hcont, to_N_byte_of_N, N.shiftr_div_pow2.
    change (2 ^ 6) with 64.
    assert (c / 64 < 32) by (apply N.Div0.div_lt_upper_bound; lia).
    change 0xC0 with (3 * 2 ^ 6).
    rewrite lor_high_low by (change (2 ^ 6) with 64; lia).
    change (3 * 2 ^ 6) with 192. rewrite N.mod_small by lia. reflexivity. }
  apply N.ltb_ge in E2.
  destruct (c <? 0x10000) eqn:E3.
  { apply N.ltb_lt in E3. destruct (is_surrogate c); [discriminate|].
    intros Hb. apply ok_inj in Hb. subst b. right. right. left. split; [lia|].
    cbn [map]. rewrite !Hland, !Hcont, to_N_byte_of_N, !N.shiftr_div_pow2.
    change (2 ^ 6) with 64. change (2 ^ 12) with (64 * 64).
    rewrite <- !N.Div0.div_div.
    assert (c / 64 / 64 < 16) by (do 2 apply N.Div0.div_lt_upper_bound; lia).
    change 0xE0 with (14 * 2 ^ 4).
    rewrite lor_high_low by (change (2 ^ 4) with 16; lia).
    change (14 * 2 ^ 4) with 224. rewrite N.mod_small by lia. reflexivity. }
  apply N.ltb_ge in E3.
  destruct (c <? 0x110000) eqn:E4; [|discriminate].
  apply N.ltb_lt in E4. intros Hb. apply ok_inj in Hb. subst b. right. right. right. split; [lia|].
  cbn [map]. rewrite !Hland, !Hcont, to_N_byte_of_N, !N.shiftr_div_pow2.
  change (2 ^ 6) with 64. change (2 ^ 12) with (64 * 64).
  change (2 ^ 18) with (64 * 64 * 64).
  rewrite <- !N.Div0.div_div.
  assert (c / 64 / 64 / 64 < 8) by (do 3 apply N.Div0.div_lt_upper_bound; lia).
  change 0xF0 with (30 * 2 ^ 3).
  rewrite lor_high_low by (change (2 ^ 3) with 8; lia).
  change (30 * 2 ^ 3) with 240. rewrite N.mod_small by lia. reflexivity.
Qed.

Lemma cons_eq_inv {A} (a b : A) (l m : list A) :
  a :: l = b :: m -> a = b /\ l = m.
Proof. intros H. split; congruence. Qed.

Ltac divmod_facts c :=
  pose proof (N.div_mod c 64 ltac:(lia));
  pose proof (N.mod_upper_bound c 64 ltac:(lia));
  pose proof (N.div_mod (c / 64) 64 ltac:(lia));
  pose proof (N.mod_upper_bound (c / 64) 64 ltac:(lia));
  pose proof (N.div_mod (c / 64 / 64) 64 ltac:(lia));
  pose proof (N.mod_upper_bound (c / 64 / 64) 64 ltac:(lia)).

Lemma utf8_char_prefix_free (c1 c2 : N) (b1 b2 r1 r2 : bytes) :
  utf8_char c1 = Ok b1 -> utf8_char c2 = Ok b2 ->
  b1 ++ r1 = b2 ++ r2 -> c1 = c2 /\ r1 = r2.
Proof.
  intros H1 H2 E.
  assert (Hc : c1 = c2).
  { apply (f_equal (map Byte.to_N)) in E. rewrite !map_app in E.
    apply utf8_char_inv in H1, H2.
    destruct H1 as [[R1 M1]|[[R1 M1]|[[R1 M1]|[R1 M1]]]];
      destruct H2 as [[R2 M2]|[[R2 M2]|[[R2 M2]|[R2 M2]]]];
      rewrite M1, M2 in E; cbn [app] in E;
      repeat match type of E with
             | _ :: _ = _ :: _ =>
                 let H := fresh "Ehd" in apply cons_eq_inv in E as [H E]
             end;
      divmod_facts c1; divmod_facts c2; lia. }
  split; [exact Hc|]. subst c2.
  assert (b1 = b2) by congruence. subst b2. now apply app_inv_head in E.
Qed.

Local Close Scope N_scope.

Lemma utf8_char_nonempty (c : N) (b : bytes) : utf8_char c = Ok b -> b <> [].
Proof.
  intros H Hb. subst b. apply utf8_char_inv in H.
  destruct H as [[_ H]|[[_ H]|[[_ H]|[_ H]]]]; discriminate H.
Qed.

(** [str.encode()] is injective: two strings with the same UTF-8 bytes are
    the same string. *)
Lemma encode_inj (s t : pystr) (b : bytes) :
  encode s = Ok b -> encode t = Ok b -> s = t.
Proof.
  revert t b. induction s as [|c s IH]; intros [|d t] b Hs Ht;
    cbn [encode] in Hs, Ht.
  - reflexivity.
  - apply rbind_ok in Ht as (bd & Hd & Ht). apply rbind_ok in Ht as (bt & _ & Ht).
    apply ok_inj in Hs, Ht. subst b.
    apply utf8_char_nonempty in Hd. destruct bd; [easy|discriminate].
  - apply rbind_ok in Hs as (bc & Hc & Hs). apply rbind_ok in Hs as (bs & _ & Hs).
    apply ok_inj in Hs, Ht. subst b.
    apply utf8_char_nonempty in Hc. destruct bc; [easy|discriminate].
  - apply rbind_ok in Hs as (bc & Hc & Hs). apply rbind_ok in Hs as (bs & Hbs & Hs).
    apply rbind_ok in Ht as (bd & Hd & Ht). apply rbind_ok in Ht as (bt & Hbt & Ht).
    apply ok_inj in Hs, Ht. subst b.
    destruct (utf8_char_prefix_free c d bc bd bs bt Hc Hd (eq_sym Ht)) as [-> ->].
    f_equal. now apply (IH t bt).
Qed.

(** [encode] returns only on strings of scalar values, and raises nothing
    but [UnicodeEncodeError]. *)
Lemma utf8_char_ok_scalar (c : N) (b : bytes) :
  utf8_char c = Ok b -> scalar_value c.
Proof.
  unfold utf8_char, scalar_value, is_surrogate.
  destruct (c <? 0x80)%N eqn:E1.
  { apply N.ltb_lt in E1. intros _. split; [lia|].
    apply andb_false_iff. left. apply N.leb_gt. lia. }
  destruct (c <? 0x800)%N eqn:E2.
  { apply N.ltb_lt in E2. intros _. split; [lia|].
    apply andb_false_iff. left. apply N.leb_gt. lia. }
  destruct (c <? 0x10000)%N eqn:E3.
  { apply N.ltb_lt in E3.
    destruct ((0xD800 <=? c)%N && (c <=? 0xDFFF)%N) eqn:Es; [discriminate|].
    intros _. split; [lia|reflexivity]. }
  apply N.ltb_ge in E3.
  destruct (c <? 0x110000)%N eqn:E4; [|discriminate].
  apply N.ltb_lt in E4. intros _. split; [lia|].
  apply andb_false_iff. right. apply N.leb_gt. lia.
Qed.

Lemma encode_ok_encodable (s : pystr) (b : bytes) :
  encode s = Ok b -> encodable s.
Proof.
  revert b. induction s as [|c s IH]; intros b H; [constructor|].
  cbn [encode] in H.
  apply rbind_ok in H as (bc & Hc & H). apply rbind_ok in H as (bs & Hs & _).
  constructor; [now apply utf8_char_ok_scalar in Hc|now apply (IH bs)].
Qed.

Lemma utf8_char_raises (c : N) (e : exn) :
  utf8_char c = Raise e -> e = UnicodeEncodeError.
Proof.
  unfold utf8_char.
  repeat match goal with
         | |- context [if ?b then _ else _] => destruct b
         end; congruence.
Qed.

Lemma encode_raises (s : pystr) (e : exn) :
  encode s = Raise e -> e = UnicodeEncodeError.
Proof.
  induction s as [|c s IH]; cbn [encode]; [discriminate|].
  destruct (utf8_char c) as [ec|bc] eqn:Ec; cbn [rbind].
  - intros H. apply utf8_char_raises in Ec. congruence.
  - destruct (encode s) as [es|bs]; cbn [rbind]; [|discriminate].
    intros H. assert (es = e) by congruence. subst. now apply IH.
Qed.

(** ** More of [_hierarchical_hash] *)

(** X2.  [_hierarchical_hash] returns exactly when both names can be encoded
    in UTF-8, and the only exception it raises is [UnicodeEncodeError]. *)
Theorem hierarchical_hash_returns_iff_encodable (entity department : pystr) :
  (encodable entity /\ encodable department
   <-> exists r, _hierarchical_hash entity department = Ok r) /\
  (forall e, _hierarchical_hash entity department = Raise e ->
             e = UnicodeEncodeError).
Proof.
  unfold _hierarchical_hash. split; [split|].
  - intros [He Hd].
    destruct (encodable_encode (lit "ENTITY:" ++ entity)) as [em ->].
    { apply encodable_app; [apply is_ascii_encodable, lit_ENTITY_ascii|exact He]. }
    cbn [rbind].
    destruct (encodable_encode (dept_input_str (sha256 em) department))
      as [dm ->]; [now apply dept_input_encodable|].
    cbn [rbind]. eauto.
  - intros [r H].
    apply rbind_ok in H as (em & Hem & H).
    apply rbind_ok in H as (dm & Hdm & _).
    apply encode_ok_encodable in Hem, Hdm.
    unfold dept_input_str in Hdm.
    apply Forall_app in Hem as [_ He].
    apply Forall_app in Hdm as [_ Hdm].
    apply Forall_app in Hdm as [_ Hdm].
    apply Forall_app in Hdm as [_ Hd].
    now split.
  - intros e.
    destruct (encode (lit "ENTITY:" ++ entity)) as [ee|em] eqn:Ee; cbn [rbind].
    + intros H. apply encode_raises in Ee. congruence.
    + cbv zeta.
      destruct (encode (dept_input_str (sha256 em) department))
        as [ed|dm] eqn:Ed; cbn [rbind];
        [|intros H; discriminate H].
      intros H. apply encode_raises in Ed. congruence.
Qed.

(** X3.  The entity index is a function of the entity name alone: whatever
    the departments, two results for one entity share their first index. *)
Theorem entity_index_independent_of_department
  (entity d1 d2 : pystr) (e1 e2 i1 i2 : Z) :
  _hierarchical_hash entity d1 = Ok (e1, i1) ->
  _hierarchical_hash entity d2 = Ok (e2, i2) ->
  e1 = e2.
Proof.
  unfold _hierarchical_hash. intros H1 H2.
  apply rbind_ok in H1 as (m1 & Hm1 & H1).
  apply rbind_ok in H2 as (m2 & Hm2 & H2).
  assert (m2 = m1) by congruence. subst m2.
  apply rbind_ok in H1 as (x1 & _ & H1).
  apply rbind_ok in H2 as (x2 & _ & H2).
  cbv zeta in H1, H2.
  set (a := Z.lor (int_from_bytes_big (firstn 4 (sha256 m1))) 0x80000000) in *.
  set (b1 := Z.lor _ _) in H1. set (b2 := Z.lor _ _) in H2.
  congruence.
Qed.

Lemma hierarchical_hash_GroupA_departments :
  _hierarchical_hash (lit "GroupA") (lit "Finance")
    = Ok (2585098242, 3778387289) /\
  _hierarchical_hash (lit "GroupA") (lit "Audit")
    = Ok (2585098242, 3635838794).
Proof. split; vm_compute; reflexivity. Qed.

(** [entity_index_independent_of_department] at the departments "Finance"
    and "Audit" of "GroupA". *)
Lemma entity_index_GroupA :
  _hierarchical_hash (lit "GroupA") (lit "Finance")
    = Ok (2585098242, 3778387289) /\
  _hierarchical_hash (lit "GroupA") (lit "Audit")
    = Ok (2585098242, 3635838794) /\
  2585098242 = 2585098242.
Proof.
  destruct hierarchical_hash_GroupA_departments as [H1 H2].
  exact (conj H1 (conj H2 (entity_index_independent_of_department
                             _ _ _ _ _ _ _ H1 H2))).
Defined.

Lemma app_inv_length {A} (a b x y : list A) :
  length a = length b -> a ++ x = b ++ y -> a = b /\ x = y.
Proof.
  revert b. induction a as [|u a IH]; intros [|v b] Hl E; cbn in Hl;
    try discriminate.
  - now split.
  - cbn [app] in E. apply cons_eq_inv in E as [-> E].
    destruct (IH b ltac:(lia) E) as [-> ->]. now split.
Qed.

(** X4.  The bytes fed to SHA-256 identify what was hashed: two entity
    names with the same entity message are the same name; a department
    message determines the entity hash and the department name; and no
    entity message is a department message (the tags differ). *)
Theorem hash_inputs_unambiguous :
  (forall E1 E2 m,
      encode (lit "ENTITY:" ++ E1) = Ok m ->
      encode (lit "ENTITY:" ++ E2) = Ok m -> E1 = E2) /\
  (forall m1 m2 D1 D2 b,
      encode (dept_input_str (sha256 m1) D1) = Ok b ->
      encode (dept_input_str (sha256 m2) D2) = Ok b ->
      sha256 m1 = sha256 m2 /\ D1 = D2) /\
  (forall E h D m1 m2,
      encode (lit "ENTITY:" ++ E) = Ok m1 ->
      encode (dept_input_str h D) = Ok m2 -> m1 <> m2).
Proof.
  split; [|split].
  - intros E1 E2 m H1 H2.
    pose proof (encode_inj _ _ _ H1 H2) as E. now apply app_inv_head in E.
  - intros m1 m2 D1 D2 b H1 H2.
    pose proof (encode_inj _ _ _ H1 H2) as E. unfold dept_input_str in E.
    apply app_inv_head in E.
    apply app_inv_length in E as [Eh Et];
      [|now rewrite !length_hex, !sha256_length].
    split; [now apply hex_inj|now apply app_inv_head in Et].
  - intros E h D m1 m2 H1 H2 Em. subst m2.
    pose proof (encode_inj _ _ _ H1 H2) as Es.
    apply (f_equal (hd 0%N)) in Es. discriminate Es.
Qed.

(** ** More of [_derive_key] *)

Section DeriveKey.
Context {P : Collaborators} {L : CollaboratorLaws P}.

(** X5.  Walking a path is walking its first part and then the rest: the
    key at [p ++ q] is the key that an engine rooted at the key of [p]
    finds at [q]; the empty path is the root key; the object is not
    changed. *)
Theorem derive_key_composes (p q : list Z) (self : TreasurySystem) :
  returned (_derive_key []) self = Ok (Some (root_key self)) /\
  returned (_derive_key (p ++ q)) self
  = (mid <- returned (_derive_key p) self ;; derive_loop mid q)%result /\
  (forall mid,
      returned (_derive_key p) self = Ok (Some mid) ->
      returned (_derive_key (p ++ q)) self
      = returned (_derive_key q) (mkTreasurySystem (seed self) mid)) /\
  object_after (_derive_key (p ++ q)) self = self.
Proof.
  rewrite !returned_derive_key.
  split; [reflexivity|]. split; [apply derive_loop_app|].
  split; [|apply read_only_derive_key].
  intros mid Hmid. rewrite derive_loop_app, Hmid. reflexivity.
Qed.

(** Every index of a walk that returns a key fits in 32 bits. *)
Lemma ChildKey_index_range (key : BIP32Key) (i : Z) (r : option BIP32Key) :
  ChildKey key i = Ok r -> 0 <= i < 2 ^ 32.
Proof.
  unfold ChildKey, CKDpriv, CKDpub.
  destruct (negb (public key)).
  - intros H. apply rbind_ok in H as (b & Hb & _). now apply pack_u32_inv in Hb.
  - destruct (negb (Z.land i BIP32_HARDEN =? 0)); [discriminate|].
    intros H. apply rbind_ok in H as (b & Hb & _). now apply pack_u32_inv in Hb.
Qed.

Lemma derive_loop_indices (path : list Z) (key key' : BIP32Key) :
  private_key_ok key ->
  derive_loop (Some key) path = Ok (Some key') ->
  Forall (fun i => 0 <= i < 2 ^ 32) path /\
  (path <> [] -> index key' = last path 0).
Proof.
  revert key. induction path as [|i path IH]; intros key Hok; cbn [derive_loop].
  - intros _. split; [constructor|congruence].
  - cbn [attr rbind].
    destruct (ChildKey key i) as [e|next] eqn:Ec; cbn [rbind]; [discriminate|].
    pose proof (ChildKey_index_range _ _ _ Ec) as Hi.
    rewrite ChildKey_private in Ec by apply Hok.
    destruct next as [child|];
      [|intros H; now apply derive_loop_None in H].
    intros H.
    destruct (CKDpriv_private key child i Hok Ec) as (Hc & _ & _ & Hidx & _).
    destruct (IH child Hc H) as [Hall Hlast].
    split; [now constructor|]. intros _.
    destruct path as [|j path].
    + cbn [derive_loop] in H. assert (key' = child) by congruence.
      subst key'. exact Hidx.
    + rewrite Hlast by discriminate. reflexivity.
Qed.

(** X6.  On a constructed engine, a key that [_derive_key] returns is a
    private key as many levels below the master key as the path has
    segments; its child number is the last segment, and every segment of the
    path is within [0, 2^32). *)
Theorem derive_key_invariant
  (mnemonic : pystr) (self : TreasurySystem) (path : list Z) (key : BIP32Key) :
  init mnemonic = Ok self ->
  returned (_derive_key path) self = Ok (Some key) ->
  private_key_ok key /\
  depth key = Z.of_nat (length path) /\
  testnet key = false /\
  Forall (fun i => 0 <= i < 2 ^ 32) path /\
  (path <> [] -> index key = last path 0).
Proof.
  intros Hinit Hk. rewrite returned_derive_key in Hk.
  destruct (init_root_key _ _ Hinit) as (Hroot & Hd & Ht).
  destruct (derive_loop_private _ _ _ Hroot Hk) as (Hok & Hdk & Htk).
  destruct (derive_loop_indices _ _ _ Hroot Hk) as [Hall Hlast].
  split; [exact Hok|]. split; [lia|]. split; [congruence|]. now split.
Qed.

End DeriveKey.

(** ** More of [generate_account] *)

Lemma lit_inj (s t : string) : lit s = lit t -> s = t.
Proof.
  unfold lit. intros H.
  assert (E : list_ascii_of_string s = list_ascii_of_string t).
  { revert H. generalize (list_ascii_of_string s) (list_ascii_of_string t).
    induction l as [|a l IH]; intros [|b m] H; cbn [map] in H;
      try discriminate; [reflexivity|].
    apply cons_eq_inv in H as [Hab Hlm].
    apply (f_equal ascii_of_N) in Hab. rewrite !ascii_N_embedding in Hab.
    subst b. f_equal. now apply IH. }
  apply (f_equal string_of_list_ascii) in E.
  now rewrite !string_of_list_ascii_of_string in E.
Qed.

(** [str(z)] determines [z]. *)
Lemma decimal_inj (a b : Z) : decimal a = decimal b -> a = b.
Proof.
  intros H.
  destruct (decimal_reads_back a) as (sa & Ha & Pa).
  destruct (decimal_reads_back b) as (sb & Hb & Pb).
  rewrite Ha, Hb in H. apply lit_inj in H. subst sb. congruence.
Qed.

Lemma string_of_uint_digits (d : Decimal.uint) :
  Forall is_digit_or_minus (lit (NilEmpty.string_of_uint d)).
Proof.
  induction d; cbn [NilEmpty.string_of_uint]; try constructor;
    try assumption; left; cbn; lia.
Qed.

Lemma decimal_digits (z : Z) : Forall is_digit_or_minus (decimal z).
Proof.
  unfold decimal, NilZero.string_of_int.
  assert (Hu : forall d, Forall is_digit_or_minus (lit (NilZero.string_of_uint d))).
  { intros d. destruct d; try apply string_of_uint_digits.
    constructor; [left; cbn; lia|constructor]. }
  destruct (Z.to_int z) as [d|d]; [apply Hu|].
  constructor; [now right|apply Hu].
Qed.

Lemma decimal_no_quote (z : Z) : ~ In 39%N (decimal z).
Proof.
  intros H. pose proof (decimal_digits z) as Hd.
  rewrite Forall_forall in Hd. destruct (Hd _ H) as [Hr|Hr]; [lia|discriminate].
Qed.

Lemma split_at_first {A} (x : A) (s1 s2 r1 r2 : list A) :
  ~ In x s1 -> ~ In x s2 ->
  s1 ++ x :: r1 = s2 ++ x :: r2 -> s1 = s2 /\ r1 = r2.
Proof.
  revert s2. induction s1 as [|a s1 IH]; intros [|b s2] H1 H2 E; cbn [app] in E.
  - apply cons_eq_inv in E as [_ E]. now split.
  - apply cons_eq_inv in E as [E _]. subst b. exfalso. apply H2. now left.
  - apply cons_eq_inv in E as [E _]. subst a. exfalso. apply H1. now left.
  - apply cons_eq_inv in E as [-> E].
    destruct (IH s2) as [-> ->]; auto.
    + intros H. apply H1. now right.
    + intros H. apply H2. now right.
Qed.

(** The path string determines the three indices printed in it. *)
Lemma path_string_inj (e1 d1 i1 e2 d2 i2 : Z) :
  lit "m/44'/60'/" ++ decimal e1 ++ lit "'/" ++ decimal d1 ++ lit "'/"
    ++ decimal i1
  = lit "m/44'/60'/" ++ decimal e2 ++ lit "'/" ++ decimal d2 ++ lit "'/"
      ++ decimal i2 ->
  e1 = e2 /\ d1 = d2 /\ i1 = i2.
Proof.
  intros H. apply app_inv_head in H.
  change (lit "'/") with (39%N :: [47%N]) in H.
  cbn [app] in H.
  apply split_at_first in H as [He H]; try apply decimal_no_quote.
  apply cons_eq_inv in H as [_ H].
  apply split_at_first in H as [Hd H]; try apply decimal_no_quote.
  apply cons_eq_inv in H as [_ H].
  repeat split; now apply decimal_inj.
Qed.

Section GenerateAccount.
Context {P : Collaborators}.

Lemma PrivateKey_length (key : BIP32Key) (priv : bytes) :
  PrivateKey key = Ok priv -> length priv = 32%nat.
Proof.
  unfold PrivateKey. destruct (public key); [discriminate|].
  destruct (k key) as [secexp|]; cbn [attr rbind]; [|discriminate].
  intros H. apply ok_inj in H. subst priv. apply length_be_bytes.
Qed.

(** What [generate_account] went through when it returns. *)
Lemma generate_account_steps (e d : pystr) (i : Z)
      (self : TreasurySystem) (acct : Account) :
  returned (generate_account e d i) self = Ok acct ->
  exists e_idx d_idx mid key priv,
    _hierarchical_hash e d = Ok (e_idx, d_idx) /\
    derive_loop (Some (root_key self)) (dept_path e_idx d_idx) = Ok (Some mid) /\
    ChildKey mid i = Ok (Some key) /\
    PrivateKey key = Ok priv /\
    acct = {| path := lit "m/44'/60'/" ++ decimal e_idx ++ lit "'/"
                        ++ decimal d_idx ++ lit "'/" ++ decimal i;
              private_key := hex priv;
              address := key_address priv |}.
Proof.
  rewrite returned_generate_account. intros H.
  apply rbind_ok in H as ([e_idx d_idx] & Hh & H). cbn [fst snd] in H.
  apply rbind_ok in H as (okey & Hloop & H).
  apply rbind_ok in H as (key & Hattr & H).
  apply rbind_ok in H as (priv & Hpriv & H).
  apply rbind_ok in H as (addr & Haddr & H).
  destruct okey as [key'|]; [|discriminate].
  assert (key' = key) by (cbn in Hattr; congruence). subst key'.
  apply derive_loop_last in Hloop as (omid & Hmid & Hlast).
  destruct omid as [mid|]; [|discriminate].
  cbn [derive_loop attr rbind] in Hlast.
  destruct (ChildKey mid i) as [ex|next] eqn:Ec; cbn [rbind] in Hlast;
    [discriminate|].
  assert (next = Some key) by congruence. subst next.
  pose proof (PrivateKey_length _ _ Hpriv) as Hlen.
  unfold Account_from_key_address in Haddr.
  rewrite hexstr_to_bytes_hex in Haddr. cbn [rbind] in Haddr.
  rewrite Hlen in Haddr. cbn [Nat.eqb negb] in Haddr.
  exists e_idx, d_idx, mid, key, priv.
  repeat split; try assumption. congruence.
Qed.

(** X7.  [generate_account] returns only for an account index within
    [0, 2^32): a negative index, or one of 2^32 and more, never yields an
    account, whatever the object. *)
Theorem generate_account_index_range
  (entity department : pystr) (account_idx : Z)
  (self : TreasurySystem) (acct : Account) :
  returned (generate_account entity department account_idx) self = Ok acct ->
  0 <= account_idx < 2 ^ 32.
Proof.
  intros H.
  apply generate_account_steps in H
    as (e_idx & d_idx & mid & key & priv & _ & _ & Hc & _).
  now apply ChildKey_index_range in Hc.
Qed.

(** X8.  The private key of a returned account is the 64-character
    hexadecimal text of a 32-byte key, and the address of the account is the
    address of that key, from the text as from the bytes. *)
Theorem generate_account_key_and_address
  (entity department : pystr) (account_idx : Z)
  (self : TreasurySystem) (acct : Account) :
  returned (generate_account entity department account_idx) self = Ok acct ->
  exists raw,
    length raw = 32%nat /\
    private_key acct = hex raw /\
    length (private_key acct) = 64%nat /\
    unhexlify (private_key acct) = Some raw /\
    Account_from_key_address (KeyStr (private_key acct)) = Ok (address acct) /\
    Account_from_key_address (KeyBytes raw) = Ok (address acct).
Proof.
  intros H.
  apply generate_account_steps in H
    as (e_idx & d_idx & mid & key & priv & _ & _ & _ & Hp & Hacct).
  subst acct.
  pose proof (PrivateKey_length _ _ Hp) as Hlen.
  exists priv. cbn [private_key address].
  split; [exact Hlen|]. split; [reflexivity|].
  split; [now rewrite length_hex, Hlen|].
  split; [apply unhexlify_hex|].
  unfold Account_from_key_address.
  rewrite hexstr_to_bytes_hex. cbn [rbind]. rewrite Hlen. now cbn.
Qed.

(** X9.  On one engine the path string identifies the account: two returned
    accounts with the same path string are the same account, asked for with
    the same account index and the same pair of hashed indices. *)
Theorem path_identifies_account
  (e1 d1 e2 d2 : pystr) (i1 i2 : Z) (self : TreasurySystem) (a1 a2 : Account) :
  returned (generate_account e1 d1 i1) self = Ok a1 ->
  returned (generate_account e2 d2 i2) self = Ok a2 ->
  path a1 = path a2 ->
  a1 = a2 /\ i1 = i2 /\ _hierarchical_hash e1 d1 = _hierarchical_hash e2 d2.
Proof.
  intros H1 H2 Hp.
  pose proof H1 as S1. pose proof H2 as S2.
  apply generate_account_steps in S1
    as (x1 & y1 & m1 & k1 & p1 & Hh1 & _ & _ & _ & E1).
  apply generate_account_steps in S2
    as (x2 & y2 & m2 & k2 & p2 & Hh2 & _ & _ & _ & E2).
  rewrite E1, E2 in Hp. cbn [path] in Hp.
  apply path_string_inj in Hp as (-> & -> & ->).
  split; [|split; [reflexivity|congruence]].
  rewrite returned_generate_account, Hh1 in H1.
  rewrite returned_generate_account, Hh2 in H2.
  congruence.
Qed.

End GenerateAccount.

(** ** More of the department export *)

Section DeptKey.
Context {P : Collaborators} {L : CollaboratorLaws P}.
Local Open Scope result_scope.

(** What [get_dept_xprv] went through when it returns. *)
Lemma get_dept_xprv_steps (mnemonic e d : pystr) (self : TreasurySystem)
      (x : pystr) :
  init mnemonic = Ok self ->
  returned (get_dept_xprv e d) self = Ok x ->
  exists e_idx d_idx kd,
    _hierarchical_hash e d = Ok (e_idx, d_idx) /\
    derive_loop (Some (root_key self)) (dept_path e_idx d_idx) = Ok (Some kd) /\
    private_key_ok kd /\
    fromExtendedKey x = Ok kd.
Proof.
  intros Hinit Hx.
  change (get_dept_xprv e d) with (get_audit_xpub e d) in Hx.
  pose proof Hx as Hx'. rewrite returned_get_audit_xpub in Hx'.
  apply rbind_ok in Hx' as ([e_idx d_idx] & Hh & H). cbn [fst snd] in H.
  apply rbind_ok in H as (okey & Hmid & H).
  apply rbind_ok in H as (kd & Hattr & _).
  destruct okey as [kd'|]; [|discriminate].
  assert (kd' = kd) by (cbn in Hattr; congruence). subst kd'.
  destruct (get_audit_xpub_decodes _ _ _ _ _ _ _ Hinit Hh Hmid)
    as (secexp & raw & _ & _ & Hret & Hdec & _).
  destruct (dept_key_private _ _ _ _ _ Hinit Hmid) as (Hkd & _).
  exists e_idx, d_idx, kd.
  split; [exact Hh|]. split; [exact Hmid|]. split; [exact Hkd|]. congruence.
Qed.

(** X10.  The private key of every account of a department is derived from
    the string that [get_dept_xprv] returns: decoding it and taking the
    child at the account index gives the account's private key. *)
Theorem dept_xprv_derives_account_keys
  (mnemonic entity department : pystr) (account_idx : Z)
  (self : TreasurySystem) (acct : Account) :
  init mnemonic = Ok self ->
  returned (generate_account entity department account_idx) self = Ok acct ->
  exists dept_xprv,
    returned (get_dept_xprv entity department) self = Ok dept_xprv /\
    (dept_key <- fromExtendedKey dept_xprv ;;
     child <- ChildKey dept_key account_idx ;;
     child <- attr child ;;
     priv <- PrivateKey child ;;
     Ok (hex priv)) = Ok (private_key acct).
Proof.
  intros Hinit Hacct.
  destruct (generate_account_inv _ _ _ _ _ _ Hinit Hacct)
    as (e_idx & d_idx & kd & child & secexp & Hh & Hmid & Hc & Hk & Ha).
  destruct (get_audit_xpub_decodes _ _ _ _ _ _ _ Hinit Hh Hmid)
    as (sd & raw & _ & _ & Hx & Hdec & Hpub).
  destruct (dept_key_private _ _ _ _ _ Hinit Hmid) as (Hkd & _).
  destruct (derive_address_private kd child account_idx Hkd Hc)
    as (s' & Hk' & Hp & _).
  assert (s' = secexp) by congruence. subst s'.
  exists (b58check_encode raw). split; [exact Hx|].
  rewrite Hdec. cbn [rbind]. rewrite ChildKey_private by exact Hpub.
  rewrite Hc. cbn [rbind attr]. rewrite Hp. cbn [rbind].
  subst acct. reflexivity.
Qed.

(** X11.  The string that [get_dept_xprv] returns decodes to a mainnet
    private key at depth 4 whose child number is the department index. *)
Theorem dept_xprv_metadata
  (mnemonic entity department : pystr) (self : TreasurySystem)
  (dept_xprv : pystr) :
  init mnemonic = Ok self ->
  returned (get_dept_xprv entity department) self = Ok dept_xprv ->
  exists e_idx d_idx key,
    _hierarchical_hash entity department = Ok (e_idx, d_idx) /\
    fromExtendedKey dept_xprv = Ok key /\
    public key = false /\
    testnet key = false /\
    depth key = 4 /\
    index key = d_idx.
Proof.
  intros Hinit Hx.
  destruct (get_dept_xprv_steps _ _ _ _ _ Hinit Hx)
    as (e_idx & d_idx & kd & Hh & Hmid & Hkd & Hdec).
  destruct (dept_key_private _ _ _ _ _ Hinit Hmid) as (_ & Hdepth & Htest).
  destruct (init_root_key _ _ Hinit) as (Hroot & _).
  destruct (derive_loop_indices _ _ _ Hroot Hmid) as [_ Hlast].
  exists e_idx, d_idx, kd.
  repeat split; try assumption; [apply Hkd|].
  rewrite Hlast by discriminate. reflexivity.
Qed.

(** X16.  Departments with different department indices are exported as
    different strings: the export carries the department index as its child
    number. *)
Theorem distinct_departments_distinct_exports
  (mnemonic e1 d1 e2 d2 : pystr) (self : TreasurySystem)
  (x1 x2 : pystr) (a1 b1 a2 b2 : Z) :
  init mnemonic = Ok self ->
  _hierarchical_hash e1 d1 = Ok (a1, b1) ->
  _hierarchical_hash e2 d2 = Ok (a2, b2) ->
  b1 <> b2 ->
  returned (get_dept_xprv e1 d1) self = Ok x1 ->
  returned (get_dept_xprv e2 d2) self = Ok x2 ->
  x1 <> x2.
Proof.
  intros Hinit Hh1 Hh2 Hne Hx1 Hx2 Ex. subst x2.
  destruct (get_dept_xprv_steps _ _ _ _ _ Hinit Hx1)
    as (u1 & v1 & k1 & Hu1 & Hm1 & _ & Hdec1).
  destruct (get_dept_xprv_steps _ _ _ _ _ Hinit Hx2)
    as (u2 & v2 & k2 & Hu2 & Hm2 & _ & Hdec2).
  assert (u1 = a1 /\ v1 = b1) as [-> ->] by (split; congruence).
  assert (u2 = a2 /\ v2 = b2) as [-> ->] by (split; congruence).
  assert (k2 = k1) by congruence. subst k2.
  destruct (init_root_key _ _ Hinit) as (Hroot & _).
  destruct (derive_loop_indices _ _ _ Hroot Hm1) as [_ Hl1].
  destruct (derive_loop_indices _ _ _ Hroot Hm2) as [_ Hl2].
  rewrite Hl1 in Hl2 by discriminate.
  apply Hne. apply Hl2. discriminate.
Qed.

End DeptKey.

(** ** More of [derive_addresses_from_xpub] *)

Lemma map_result_intro {A B} (f : A -> result B) (l : list A) (r : list B) :
  length r = length l ->
  (forall n a, nth_error l n = Some a ->
               exists b, nth_error r n = Some b /\ f a = Ok b) ->
  map_result f l = Ok r.
Proof.
  revert r. induction l as [|a l IH]; intros [|b r] Hlen H; cbn in Hlen;
    try discriminate; [reflexivity|].
  cbn [map_result].
  destruct (H 0%nat a eq_refl) as (b' & Hb & Hf). cbn in Hb.
  assert (b' = b) by congruence. subst b'. rewrite Hf. cbn [rbind].
  rewrite (IH r); [reflexivity|lia|].
  intros n x Hx. apply (H (S n) x Hx).
Qed.

Lemma map_result_firstn {A B} (f : A -> result B) (n : nat)
      (l : list A) (r : list B) :
  map_result f l = Ok r -> map_result f (firstn n l) = Ok (firstn n r).
Proof.
  revert l r. induction n as [|n IH]; intros l r H; [reflexivity|].
  destruct l as [|a l]; cbn [map_result] in H.
  - apply ok_inj in H. subst r. reflexivity.
  - apply rbind_ok in H as (b & Hb & H). apply rbind_ok in H as (bs & Hbs & H).
    apply ok_inj in H. subst r. cbn [firstn map_result].
    rewrite Hb. cbn [rbind]. rewrite (IH l bs Hbs). reflexivity.
Qed.

Lemma firstn_range (n m : Z) :
  0 <= n <= m -> firstn (Z.to_nat n) (range m) = range n.
Proof.
  intros H. unfold range. rewrite firstn_map. f_equal.
  replace (Z.to_nat m) with (Z.to_nat n + (Z.to_nat m - Z.to_nat n))%nat by lia.
  rewrite seq_app. apply firstn_app_exact, length_seq.
Qed.

Lemma range_nonpositive (count : Z) : count <= 0 -> range count = [].
Proof.
  intros H. unfold range. now replace (Z.to_nat count) with 0%nat by lia.
Qed.

Section DeriveAddresses.
Context {P : Collaborators}.

(** The index 2^32 has no child, from a private key or a public one. *)
Lemma derive_address_out_of_range (key : BIP32Key) (i : Z) :
  2 ^ 32 <= i -> is_ok (derive_address key i) = false.
Proof.
  intros H. unfold derive_address.
  destruct (ChildKey key i) as [e|r] eqn:E; [reflexivity|].
  apply ChildKey_index_range in E. lia.
Qed.

(** X13.  [derive_addresses_from_xpub] raises what decoding the string
    raises, whatever the count; for a string that decodes and a count of
    zero or less it returns the empty list; and a list it returns has
    exactly [count] entries. *)
Theorem derive_addresses_length (xpub : pystr) (count : Z) :
  (forall e, fromExtendedKey xpub = Raise e ->
             derive_addresses_from_xpub xpub count = Raise e) /\
  (forall key, fromExtendedKey xpub = Ok key -> count <= 0 ->
               derive_addresses_from_xpub xpub count = Ok []) /\
  (forall addrs, derive_addresses_from_xpub xpub count = Ok addrs ->
                 length addrs = Z.to_nat count).
Proof.
  unfold derive_addresses_from_xpub. split; [|split].
  - intros e ->. reflexivity.
  - intros key -> Hc. cbn [rbind]. now rewrite range_nonpositive.
  - intros addrs H. apply rbind_ok in H as (key & _ & H).
    apply map_result_nth in H as [Hlen _]. now rewrite Hlen, length_range.
Qed.

(** X14.  Asking for fewer addresses gives a prefix: when the call returns
    for [m], it returns for every [n] from 0 to [m], with the first [n]
    addresses of the longer list. *)
Theorem derive_addresses_prefix (xpub : pystr) (n m : Z) (addrs : list pystr) :
  derive_addresses_from_xpub xpub m = Ok addrs ->
  0 <= n <= m ->
  derive_addresses_from_xpub xpub n = Ok (firstn (Z.to_nat n) addrs).
Proof.
  unfold derive_addresses_from_xpub. intros H Hn.
  apply rbind_ok in H as (key & -> & H). cbn [rbind].
  rewrite <- (firstn_range n m Hn). now apply map_result_firstn.
Qed.

(** X15.  No list of more than 2^32 addresses is ever returned: the index
    2^32 cannot be packed as a child number. *)
Theorem derive_addresses_count_bound (xpub : pystr) (count : Z) :
  2 ^ 32 < count ->
  is_ok (derive_addresses_from_xpub xpub count) = false.
Proof.
  intros Hc.
  destruct (derive_addresses_from_xpub xpub count) as [e|addrs] eqn:E;
    [reflexivity|exfalso].
  unfold derive_addresses_from_xpub in E.
  apply rbind_ok in E as (key & _ & E).
  apply map_result_nth in E as [_ Hnth].
  destruct (Hnth _ _ (nth_error_range count (2 ^ 32) ltac:(lia)))
    as (b & _ & Hb).
  pose proof (derive_address_out_of_range key (2 ^ 32) ltac:(lia)) as Hno.
  rewrite Hb in Hno. discriminate Hno.
Qed.

End DeriveAddresses.

Section AuditList.
Context {P : Collaborators} {L : CollaboratorLaws P}.

Lemma derive_address_inv (kd : BIP32Key) (j : Z) (b : pystr) :
  private_key_ok kd ->
  derive_address kd j = Ok b ->
  exists child, CKDpriv kd j = Ok (Some child).
Proof.
  intros Hkd H. unfold derive_address in H.
  rewrite ChildKey_private in H by apply Hkd.
  apply rbind_ok in H as (oc & Hc & H).
  apply rbind_ok in H as (child & Hattr & _).
  destruct oc as [c|]; [|discriminate]. now exists c.
Qed.

(** X12.  The audit list is the list of the department's account addresses:
    for the string that [get_audit_xpub] exports, a list is returned for
    [N] exactly when the accounts 0 to [N - 1] can all be generated, and
    its entry [j] is the address of account [j]. *)
Theorem audit_list_is_account_list
  (mnemonic entity department : pystr) (self : TreasurySystem)
  (xpub : pystr) (N : Z) (addrs : list pystr) :
  init mnemonic = Ok self ->
  returned (get_audit_xpub entity department) self = Ok xpub ->
  (derive_addresses_from_xpub xpub N = Ok addrs
   <-> length addrs = Z.to_nat N /\
       forall j, 0 <= j < N ->
                 exists acct,
                   returned (generate_account entity department j) self
                   = Ok acct /\
                   nth_error addrs (Z.to_nat j) = Some (address acct)).
Proof.
  intros Hinit Hx.
  destruct (get_dept_xprv_steps _ _ _ _ _ Hinit Hx)
    as (e_idx & d_idx & kd & Hh & Hmid & Hkd & Hdec).
  unfold derive_addresses_from_xpub. rewrite Hdec. cbn [rbind].
  split.
  - intros Hmap. destruct (map_result_nth _ _ _ Hmap) as [Hlen Hnth].
    split; [now rewrite Hlen, length_range|].
    intros j Hj.
    destruct (Hnth _ _ (nth_error_range N j Hj)) as (b & Hb & Hbj).
    destruct (derive_address_inv kd j b Hkd Hbj) as [child Hc].
    destruct (generate_account_intro _ _ _ _ _ _ _ _ _ Hinit Hh Hmid Hc)
      as (secexp & Hk & Hacct).
    destruct (derive_address_private kd child j Hkd Hc) as (s' & Hk' & _ & Ha).
    assert (s' = secexp) by congruence. subst s'.
    eexists. split; [exact Hacct|]. cbn [address]. congruence.
  - intros [Hlen Hall]. apply map_result_intro.
    + now rewrite length_range.
    + intros n a Hn.
      assert (Hr : In a (range N)) by (eapply nth_error_In; exact Hn).
      apply In_range in Hr.
      assert (Ha : a = Z.of_nat n).
      { pose proof (nth_error_range N (Z.of_nat n)) as Hn'.
        rewrite Nat2Z.id in Hn'.
        assert (Hlt : (n < length (range N))%nat)
          by (apply nth_error_Some; congruence).
        rewrite length_range in Hlt.
        rewrite Hn' in Hn by lia. congruence. }
      subst a. destruct (Hall _ Hr) as (acct & Hacct & Hnth).
      rewrite Nat2Z.id in Hnth.
      exists (address acct). split; [exact Hnth|].
      destruct (generate_account_inv _ _ _ _ _ _ Hinit Hacct)
        as (e' & d' & kd' & child & secexp & Hh' & Hmid' & Hc & Hk & ->).
      assert (e' = e_idx /\ d' = d_idx) as [-> ->] by (split; congruence).
      assert (kd' = kd) by congruence. subst kd'.
      destruct (derive_address_private kd child _ Hkd Hc) as (s' & Hk' & _ & Ha).
      assert (s' = secexp) by congruence. subst s'. exact Ha.
Qed.

End AuditList.

(** ** [__init__] *)

Section Construction.
Context {P : Collaborators}.

(** X1.  [__init__] raises [ValueError] on a phrase that the mnemonic check
    refuses and builds nothing; an object it does build holds the seed of
    the phrase, at least 16 bytes long, and as root key the master key of
    that seed: a mainnet private key at depth 0 with child number 0, no
    parent, and a secret exponent within [1, n). *)
Theorem init_builds_master_key (mnemonic : pystr) :
  (mnemonic_check mnemonic = false ->
   init mnemonic = Raise (ValueError "Invalid BIP-39 mnemonic")) /\
  (forall self,
      init mnemonic = Ok self ->
      mnemonic_check mnemonic = true /\
      seed self = mnemonic_to_seed mnemonic /\
      (16 <= length (seed self))%nat /\
      fromEntropy (seed self) = Ok (root_key self) /\
      public (root_key self) = false /\
      testnet (root_key self) = false /\
      depth (root_key self) = 0 /\
      index (root_key self) = 0 /\
      parent_fpr (root_key self) = [x00; x00; x00; x00] /\
      exists secexp,
        k (root_key self) = Some secexp /\ 1 <= secexp < CURVE_ORDER).
Proof.
  unfold init. split.
  - intros ->. reflexivity.
  - intros self.
    destruct (mnemonic_check mnemonic); cbn [negb]; [|discriminate].
    destruct (fromEntropy (mnemonic_to_seed mnemonic)) as [e|root] eqn:E;
      cbn [rbind]; [discriminate|].
    intros H. apply ok_inj in H. subst self. cbn [seed root_key].
    split; [reflexivity|]. split; [reflexivity|].
    pose proof E as E'. unfold fromEntropy in E'.
    destruct (MIN_ENTROPY_LEN / 8 <=? Z.of_nat (length (mnemonic_to_seed mnemonic)))
      eqn:Hlen; cbn [negb] in E'; [|discriminate].
    apply Z.leb_le in Hlen. change (MIN_ENTROPY_LEN / 8) with 16 in Hlen.
    apply init_private_inv in E' as (_ & Hr & ->).
    split; [lia|]. split; [exact E|]. cbn [public testnet depth index parent_fpr k].
    repeat split; try reflexivity. eauto.
Qed.

End Construction.

(** ** The added properties on the stand-in engine *)

Lemma standin_account_0 :
  exists acct,
    returned (generate_account (P := Standin.collaborators)
                               (lit "GroupA") (lit "Finance") 0)
             Standin.engine = Ok acct.
Proof.
  run_exists (returned (generate_account (P := Standin.collaborators)
                                         (lit "GroupA") (lit "Finance") 0)
                       Standin.engine).
  by_run.
Qed.

Lemma standin_export :
  exists xpub addrs,
    returned (get_audit_xpub (P := Standin.collaborators)
                             (lit "GroupA") (lit "Finance"))
             Standin.engine = Ok xpub /\
    derive_addresses_from_xpub (P := Standin.collaborators) xpub 2 = Ok addrs.
Proof.
  run_exists (returned (get_audit_xpub (P := Standin.collaborators)
                                       (lit "GroupA") (lit "Finance"))
                       Standin.engine).
  match goal with
  | |- exists _, _ = Ok ?x /\ _ =>
      run_exists (derive_addresses_from_xpub (P := Standin.collaborators) x 2)
  end.
  split; by_run.
Qed.

Lemma standin_dept_key :
  exists kd,
    returned (_derive_key (P := Standin.collaborators)
                          (dept_path 2585098242 3778387289))
             Standin.engine = Ok (Some kd).
Proof.
  run_exists_some (returned (_derive_key (P := Standin.collaborators)
                                         (dept_path 2585098242 3778387289))
                            Standin.engine).
  by_run.
Qed.

(** [derive_key_invariant] at the department path of ("GroupA", "Finance"). *)
Lemma derive_key_invariant_standin :
  exists kd,
    returned (_derive_key (P := Standin.collaborators)
                          (dept_path 2585098242 3778387289))
             Standin.engine = Ok (Some kd) /\
    private_key_ok (P := Standin.collaborators) kd /\
    depth kd = Z.of_nat (length (dept_path 2585098242 3778387289)) /\
    testnet kd = false /\
    Forall (fun i => 0 <= i < 2 ^ 32) (dept_path 2585098242 3778387289) /\
    (dept_path 2585098242 3778387289 <> [] ->
     index kd = last (dept_path 2585098242 3778387289) 0).
Proof.
  destruct standin_dept_key as [kd Hkd]. exists kd.
  exact (conj Hkd (derive_key_invariant (L := standin_laws) Standin.phrase
                     Standin.engine _ kd standin_engine_constructed Hkd)).
Defined.

(** [generate_account_index_range] at account 0 of ("GroupA", "Finance"). *)
Lemma generate_account_index_range_standin :
  exists acct,
    returned (generate_account (P := Standin.collaborators)
                               (lit "GroupA") (lit "Finance") 0)
             Standin.engine = Ok acct /\
    0 <= 0 < 2 ^ 32.
Proof.
  destruct standin_account_0 as [acct H]. exists acct.
  exact (conj H (generate_account_index_range _ _ _ _ _ H)).
Defined.

(** [generate_account_key_and_address] at account 0. *)
Lemma generate_account_key_and_address_standin :
  exists acct,
    returned (generate_account (P := Standin.collaborators)
                               (lit "GroupA") (lit "Finance") 0)
             Standin.engine = Ok acct /\
    exists raw,
      length raw = 32%nat /\
      private_key acct = hex raw /\
      length (private_key acct) = 64%nat /\
      unhexlify (private_key acct) = Some raw /\
      Account_from_key_address (P := Standin.collaborators)
                               (KeyStr (private_key acct))
        = Ok (address acct) /\
      Account_from_key_address (P := Standin.collaborators) (KeyBytes raw)
        = Ok (address acct).
Proof.
  destruct standin_account_0 as [acct H]. exists acct.
  exact (conj H (generate_account_key_and_address _ _ _ _ _ H)).
Defined.

(** [path_identifies_account] at two calls for account 0. *)
Lemma path_identifies_account_standin :
  exists acct,
    returned (generate_account (P := Standin.collaborators)
                               (lit "GroupA") (lit "Finance") 0)
             Standin.engine = Ok acct /\
    (acct = acct /\ 0 = 0 /\
     _hierarchical_hash (lit "GroupA") (lit "Finance")
     = _hierarchical_hash (lit "GroupA") (lit "Finance")).
Proof.
  destruct standin_account_0 as [acct H]. exists acct.
  exact (conj H (path_identifies_account _ _ _ _ _ _ _ _ _ H H eq_refl)).
Defined.

(** [dept_xprv_derives_account_keys] at account 0. *)
Lemma dept_xprv_derives_account_keys_standin :
  exists acct dept_xprv,
    returned (generate_account (P := Standin.collaborators)
                               (lit "GroupA") (lit "Finance") 0)
             Standin.engine = Ok acct /\
    returned (get_dept_xprv (P := Standin.collaborators)
                            (lit "GroupA") (lit "Finance"))
             Standin.engine = Ok dept_xprv /\
    (dept_key <- fromExtendedKey (P := Standin.collaborators) dept_xprv ;;
     child <- ChildKey (P := Standin.collaborators) dept_key 0 ;;
     child <- attr child ;;
     priv <- PrivateKey child ;;
     Ok (hex priv))%result = Ok (private_key acct).
Proof.
  destruct standin_account_0 as [acct H]. exists acct.
  destruct (dept_xprv_derives_account_keys (L := standin_laws)
              Standin.phrase _ _ _ Standin.engine acct
              standin_engine_constructed H) as (x & Hx & Hk).
  exists x. exact (conj H (conj Hx Hk)).
Defined.

(** [dept_xprv_metadata] and [audit_list_is_account_list] at the export of
    ("GroupA", "Finance"), and [derive_addresses_prefix] at 1 of 2. *)
Lemma dept_xprv_metadata_standin :
  exists dept_xprv e_idx d_idx key,
    returned (get_dept_xprv (P := Standin.collaborators)
                            (lit "GroupA") (lit "Finance"))
             Standin.engine = Ok dept_xprv /\
    _hierarchical_hash (lit "GroupA") (lit "Finance") = Ok (e_idx, d_idx) /\
    fromExtendedKey (P := Standin.collaborators) dept_xprv = Ok key /\
    public key = false /\
    testnet key = false /\
    depth key = 4 /\
    index key = d_idx.
Proof.
  destruct standin_export as (x & addrs & Hx & _). exists x.
  change (get_audit_xpub (lit "GroupA") (lit "Finance"))
    with (get_dept_xprv (P := Standin.collaborators)
                        (lit "GroupA") (lit "Finance")) in Hx.
  destruct (dept_xprv_metadata (L := standin_laws) Standin.phrase _ _
              Standin.engine x standin_engine_constructed Hx)
    as (e_idx & d_idx & key & Hall).
  exists e_idx, d_idx, key. exact (conj Hx Hall).
Defined.

Lemma audit_list_is_account_list_standin :
  exists xpub addrs,
    returned (get_audit_xpub (P := Standin.collaborators)
                             (lit "GroupA") (lit "Finance"))
             Standin.engine = Ok xpub /\
    derive_addresses_from_xpub (P := Standin.collaborators) xpub 2 = Ok addrs /\
    length addrs = Z.to_nat 2 /\
    forall j, 0 <= j < 2 ->
              exists acct,
                returned (generate_account (P := Standin.collaborators)
                                           (lit "GroupA") (lit "Finance") j)
                         Standin.engine = Ok acct /\
                nth_error addrs (Z.to_nat j) = Some (address acct).
Proof.
  destruct standin_export as (x & addrs & Hx & Ha). exists x, addrs.
  exact (conj Hx (conj Ha
           (proj1 (audit_list_is_account_list (L := standin_laws)
                     Standin.phrase _ _ Standin.engine x 2 addrs
                     standin_engine_constructed Hx) Ha))).
Defined.

Lemma derive_addresses_prefix_standin :
  exists xpub addrs,
    derive_addresses_from_xpub (P := Standin.collaborators) xpub 2 = Ok addrs /\
    derive_addresses_from_xpub (P := Standin.collaborators) xpub 1
    = Ok (firstn (Z.to_nat 1) addrs).
Proof.
  destruct standin_export as (x & addrs & _ & Ha). exists x, addrs.
  exact (conj Ha (derive_addresses_prefix x 1 2 addrs Ha ltac:(lia))).
Defined.

(** [derive_addresses_count_bound] at 2^32 + 1. *)
Lemma derive_addresses_count_bound_standin :
  is_ok (derive_addresses_from_xpub (P := Standin.collaborators)
                                    (lit "xprv") (2 ^ 32 + 1)) = false.
Proof.
  exact (derive_addresses_count_bound (lit "xprv") (2 ^ 32 + 1) ltac:(lia)).
Defined.

Lemma standin_export_audit :
  exists xpub,
    returned (get_dept_xprv (P := Standin.collaborators)
                            (lit "GroupA") (lit "Audit"))
             Standin.engine = Ok xpub.
Proof.
  run_exists (returned (get_dept_xprv (P := Standin.collaborators)
                                      (lit "GroupA") (lit "Audit"))
                       Standin.engine).
  by_run.
Qed.

(** [distinct_departments_distinct_exports] at the departments "Finance"
    and "Audit" of "GroupA". *)
Lemma distinct_departments_distinct_exports_standin :
  exists x1 x2,
    returned (get_dept_xprv (P := Standin.collaborators)
                            (lit "GroupA") (lit "Finance"))
             Standin.engine = Ok x1 /\
    returned (get_dept_xprv (P := Standin.collaborators)
                            (lit "GroupA") (lit "Audit"))
             Standin.engine = Ok x2 /\
    x1 <> x2.
Proof.
  destruct standin_export as (x1 & addrs & Hx1 & _).
  destruct standin_export_audit as (x2 & Hx2).
  change (get_audit_xpub (lit "GroupA") (lit "Finance"))
    with (get_dept_xprv (P := Standin.collaborators)
                        (lit "GroupA") (lit "Finance")) in Hx1.
  exists x1, x2.
  exact (conj Hx1 (conj Hx2
           (distinct_departments_distinct_exports (L := standin_laws)
              Standin.phrase _ _ _ _ Standin.engine x1 x2 _ _ _ _
              standin_engine_constructed
              (proj1 hierarchical_hash_GroupA_departments)
              (proj2 hierarchical_hash_GroupA_departments)
              ltac:(discriminate) Hx1 Hx2))).
Defined.
